(** * Admin dashboard front end: RBAC table, route guard, session store
      and token-refresh interceptor

    A shallow embedding of
      - [src/hooks/usePermission.ts]   (role permission table),
      - [src/routes/AppRoutes.tsx]     (route guards),
      - [src/api/auth.ts]              (persisted session slots),
      - [src/api/client.ts]            (axios instance and its interceptors),
      - [src/contexts/AuthContext.tsx] (AuthProvider: session state, refresh
                                        interceptor, login, register, logout
                                        and refreshUser),
      - [src/components/layout/Sidebar.tsx], [src/pages/users/UsersPage.tsx]
        and [src/pages/merchants/MerchantsPage.tsx] (role-filtered links and
        page wrappers),
      - [src/utils/helpers.ts]         (truncateText, generateAvatarColor,
                                        isValidEmail),
      - [src/validations/schemas]      (the form schemas of auth.ts and
                                        user.ts).

    Of the provider, [forgotPassword] and [resetPassword] are not embedded:
    they touch no state.

    JavaScript values are modelled at the level the TypeScript sources give
    them: records for interfaces, [option] for values that may be [null] or
    [undefined], [string] for runtime strings.  [localStorage] is a finite
    map from keys to strings.

    Asynchronous code is modelled by explicit continuations: every request
    that is on the wire carries the continuation that its reply resumes, and
    one reply is processed atomically (the event loop runs the promise
    reactions of one network event to completion before the next network
    event; the only suspension points of the modelled code are network
    calls).

    What is taken from the libraries and the platform, not from [src/]:
      - axios runs response interceptors in the order they were installed
        and request interceptors before the adapter;
      - axios keeps unknown members of a config, such as [_retry], when a
        config is passed to [apiClient] again;
      - a property read on an object literal consults [Object.prototype];
      - [JSON.parse] and [JSON.stringify] are parameters ([JSON]);
      - an assignment to [window.location.href] is recorded as an action;
        the page load it starts is outside the model, so traces describe
        what the handlers do in the page that made the request. *)

From Stdlib Require Import Ascii String ZArith.
From stdpp Require Import base option list strings pretty gmap.

Local Open Scope string_scope.
Local Open Scope list_scope.

(** ** JavaScript preliminaries *)

(** [String.prototype.includes]: substring test. *)
Fixpoint includes (needle hay : string) : bool :=
  String.prefix needle hay ||
  match hay with
  | EmptyString => false
  | String _ rest => includes needle rest
  end.

(** Truthiness of a value of type [string | null]: [null] and the empty
    string are falsy. *)
Definition truthy (v : option string) : bool :=
  match v with
  | None => false
  | Some s => negb (String.eqb s "")
  end.

(** Property names that every object literal inherits from
    [Object.prototype].  A property read [o[k]] on an object literal finds
    these when [k] is not an own property of [o]; each of them is a function
    or an object, hence truthy. *)
Definition objectPrototypeKeys : list string :=
  [ "constructor"; "__proto__"; "hasOwnProperty"; "isPrototypeOf";
    "propertyIsEnumerable"; "toLocaleString"; "toString"; "valueOf";
    "__defineGetter__"; "__defineSetter__"; "__lookupGetter__";
    "__lookupSetter__" ].

(** Result of a property read on an object literal whose own properties
    have type [A]. *)
Inductive PropertyValue (A : Type) : Type :=
| Own (a : A)
| Inherited (name : string)
| Undefined.
Arguments Own {A} a.
Arguments Inherited {A} name.
Arguments Undefined {A}.

Definition getProperty {A : Type} (own : gmap string A) (key : string)
  : PropertyValue A :=
  match own !! key with
  | Some a => Own a
  | None =>
      if bool_decide (key ∈ objectPrototypeKeys) then Inherited key
      else Undefined
  end.

(** [v || d] where [v] is the result of a property read and [d] an object:
    own values (objects) and inherited members are truthy. *)
Definition orElse {A : Type} (v : PropertyValue A) (d : A) : PropertyValue A :=
  match v with
  | Undefined => Own d
  | _ => v
  end.

(** [ToPropertyKey] of a value of type [string | undefined]. *)
Definition toPropertyKey (v : option string) : string :=
  match v with
  | Some s => s
  | None => "undefined"
  end.

(** ** Types of [src/types/models] *)

Inductive UserRole : Type := super_admin | admin | merchant.

(** The string literal of each member of the [UserRole] union. *)
Definition roleName (r : UserRole) : string :=
  match r with
  | super_admin => "super_admin"
  | admin => "admin"
  | merchant => "merchant"
  end.

Record RolePermissions : Type := mkRolePermissions {
  canViewUsers : bool;
  canCreateUsers : bool;
  canUpdateUsers : bool;
  canDeleteUsers : bool;
  canViewMerchants : bool;
  canCreateMerchants : bool;
  canUpdateMerchants : bool;
  canDeleteMerchants : bool;
  canViewAllMerchants : bool
}.

(** [keyof RolePermissions]. *)
Inductive PermissionKey : Type :=
| KCanViewUsers | KCanCreateUsers | KCanUpdateUsers | KCanDeleteUsers
| KCanViewMerchants | KCanCreateMerchants | KCanUpdateMerchants
| KCanDeleteMerchants | KCanViewAllMerchants.

(** The [User] interface.  [role] is a runtime string (the value comes from
    the backend or from [localStorage]); [None] is an absent property.  The
    members no modelled function reads (timestamps, [merchant]) are left
    out. *)
Record User : Type := mkUser {
  id : Z;
  name : string;
  email : string;
  role : option string;
  token : option string;
  refresh_token : option string
}.

(** ** Role permission table ([usePermission.ts]) *)

Definition superAdminPermissions : RolePermissions :=
  mkRolePermissions true true true true true true true true true.

Definition adminPermissions : RolePermissions :=
  mkRolePermissions false false false false true true true true true.

Definition merchantPermissions : RolePermissions :=
  mkRolePermissions false false false false true false false false false.

Definition noPermissions : RolePermissions :=
  mkRolePermissions false false false false false false false false false.

(** The own properties of the [rolePermissions] object literal. *)
Definition rolePermissions : gmap string RolePermissions :=
  <["super_admin" := superAdminPermissions]>
    (<["admin" := adminPermissions]>
       (<["merchant" := merchantPermissions]> ∅)).

(** [getPermissions] of the hook, as a function of the context's [user]:
    [rolePermissions[user.role] || rolePermissions.merchant]. *)
Definition getPermissions (user : option User) : PropertyValue RolePermissions :=
  match user with
  | None => Own noPermissions
  | Some u =>
      orElse (getProperty rolePermissions (toPropertyKey (role u)))
             merchantPermissions
  end.

Definition readFlag (p : RolePermissions) (k : PermissionKey) : bool :=
  match k with
  | KCanViewUsers => canViewUsers p
  | KCanCreateUsers => canCreateUsers p
  | KCanUpdateUsers => canUpdateUsers p
  | KCanDeleteUsers => canDeleteUsers p
  | KCanViewMerchants => canViewMerchants p
  | KCanCreateMerchants => canCreateMerchants p
  | KCanUpdateMerchants => canUpdateMerchants p
  | KCanDeleteMerchants => canDeleteMerchants p
  | KCanViewAllMerchants => canViewAllMerchants p
  end.

(** [permissions[permission] ?? false]: none of the inherited members has a
    property named like a permission flag. *)
Definition hasPermission (user : option User) (k : PermissionKey) : bool :=
  match getPermissions user with
  | Own p => readFlag p k
  | Inherited _ => false
  | Undefined => false
  end.

(** The value of a [string | null | undefined] expression when it is
    truthy. *)
Definition ifTruthy (v : option string) : option string :=
  match v with
  | Some s => if String.eqb s "" then None else Some s
  | None => None
  end.

(** [Array.prototype.includes] on a [UserRole[]] literal, applied to the
    runtime value of [user.role]: exact string comparison. *)
Definition rolesInclude (roles : list UserRole) (r : option string) : bool :=
  existsb (fun a => bool_decide (Some (roleName a) = r)) roles.

Definition canAccessRoute (user : option User) (requiredRoles : list UserRole)
  : bool :=
  match user with
  | None => false
  | Some u => rolesInclude requiredRoles (role u)
  end.


(** ** Requests, replies, errors and continuations *)

(** The part of an [AxiosRequestConfig] the interceptors read or write:
    [url], [headers.Authorization], the [_retry] mark that the refresh
    interceptor adds, and the request body (a refresh token, for the two
    calls that send one). *)
Record Config : Type := mkConfig {
  url : string;
  Authorization : option string;
  _retry : bool;
  data : option string
}.

Definition setAuthorization (h : option string) (c : Config) : Config :=
  mkConfig (url c) h (_retry c) (data c).

Definition set_retry (b : bool) (c : Config) : Config :=
  mkConfig (url c) (Authorization c) b (data c).

(** [response.data.data] of a reply: absent, an object with a [user]
    property, or an object that is itself read as a [User]. *)
Inductive ResponseData : Type :=
| NoData
| WithUserField (u : User)
| Direct (u : User).

Inductive JsError : Type :=
| AxiosError (config : Config) (status : option nat)
    (* [error.config] and [error.response?.status]; no status: network
       failure or timeout *)
| ErrorMessage (message : string)   (* [new Error(message)] *)
| TypeError                         (* property read on [undefined] *)
| SyntaxError                       (* thrown by [JSON.parse] *)
| LoginError (cause : JsError).
    (* what the [catch] block of [login] throws: [new Error(message)], the
       message read from the response of [cause] or, failing that, from its
       own message, with [cause.response] copied *)

(** Normal or abrupt completion of a synchronous computation. *)
Inductive Completion (A : Type) : Type :=
| Returns (a : A)
| Throws (e : JsError).
Arguments Returns {A} a.
Arguments Throws {A} e.

(** [try { body } catch { handler }]. *)
Definition tryCatch {A : Type} (body : Completion A)
  (handler : JsError -> Completion A) : Completion A :=
  match body with
  | Returns a => Returns a
  | Throws e => handler e
  end.

(** The built-in [JSON] object, restricted to the values this program
    passes through it.  [JSON_parse] returns [Returns None] for a text that
    denotes a falsy value such as [null]. *)
Class JSON : Type := {
  JSON_parse : string -> Completion (option User);
  JSON_stringify : User -> string
}.

(** How a promise settles. *)
Inductive Settled : Type :=
| Fulfilled (d : ResponseData)
| Rejected (e : JsError).

(** What resumes when the reply to a request arrives.  The promise returned
    by [apiClient(config)] is awaited either by a component (through
    [api.get], [api.post], ...), by the refresh interceptor (the [await] of
    [authApi.refreshToken] inside the handler of [originalRequest], whose
    own result settles [k]), or by [authApi.logout] / [authApi.login] on
    behalf of the provider's [logout] / [login]. *)
Inductive Kont : Type :=
| KCaller (p : nat)
| KRefresh (originalRequest : Config) (k : Kont)
| KLogout (p : nat)
| KLogin (p : nat).

(** Reply of the backend to one request: a 2xx response with its payload,
    or an error with its status, if any. *)
Inductive Reply : Type :=
| ReplyOk (d : ResponseData)
| ReplyError (status : option nat).

(** Observable actions, in the order they happen: requests put on the wire
    (with the continuation their reply will resume), settlements of promises
    held by components, navigations, erasures of persisted slots and calls of
    [authApi.clearUser]. *)
Inductive Effect : Type :=
| Dispatch (c : Config) (k : Kont)
| Settle (p : nat) (r : Settled)
| Navigate (href : string)
| RemoveItem (key : string)
| ClearUser.

(** ** Program state *)

(** [localStorage], the React state of [AuthProvider] ([user],
    [isLoading]), the module-level refresh state of [AuthContext.tsx]
    ([isRefreshing], [refreshSubscribers]; each subscriber closes over its
    [originalRequest] and the [resolve] of the promise it returned) and
    [window.location.pathname]. *)
Record State : Type := mkState {
  localStorage : gmap string string;
  user : option User;
  isLoading : bool;
  isRefreshing : bool;
  refreshSubscribers : list (Config * Kont);
  pathname : string
}.

(** A computation over the state that logs its observable actions. *)
Definition M (A : Type) : Type := State -> A * State * list Effect.

Definition ret {A : Type} (a : A) : M A := fun st => (a, st, []).

Definition bind {A B : Type} (m : M A) (f : A -> M B) : M B :=
  fun st =>
    let '(a, st1, e1) := m st in
    let '(b, st2, e2) := f a st1 in
    (b, st2, e1 ++ e2).

#[export] Instance M_ret : MRet M := @ret.
#[export] Instance M_bind : MBind M := fun A B f m => bind m f.

Definition gets {A : Type} (f : State -> A) : M A := fun st => (f st, st, []).

Definition emit (e : Effect) : M unit := fun st => (tt, st, [e]).

Definition when (b : bool) (m : M unit) : M unit := if b then m else ret tt.

(** [array.forEach(f)]. *)
Fixpoint forEach {A : Type} (l : list A) (f : A -> M unit) : M unit :=
  match l with
  | [] => ret tt
  | x :: l' => f x;; forEach l' f
  end.

Definition exec (m : M unit) (st : State) : State * list Effect :=
  let '(_, st', e) := m st in (st', e).

Definition setLocalStorage (ls : gmap string string) : M unit :=
  fun st => (tt, mkState ls (user st) (isLoading st) (isRefreshing st)
                         (refreshSubscribers st) (pathname st), []).

Definition setUser (u : option User) : M unit :=
  fun st => (tt, mkState (localStorage st) u (isLoading st) (isRefreshing st)
                         (refreshSubscribers st) (pathname st), []).

Definition setIsLoading (b : bool) : M unit :=
  fun st => (tt, mkState (localStorage st) (user st) b (isRefreshing st)
                         (refreshSubscribers st) (pathname st), []).

Definition setIsRefreshing (b : bool) : M unit :=
  fun st => (tt, mkState (localStorage st) (user st) (isLoading st) b
                         (refreshSubscribers st) (pathname st), []).

Definition setRefreshSubscribers (l : list (Config * Kont)) : M unit :=
  fun st => (tt, mkState (localStorage st) (user st) (isLoading st)
                         (isRefreshing st) l (pathname st), []).

Definition getItem (key : string) : M (option string) :=
  gets (fun st => localStorage st !! key).

Definition setItem (key value : string) : M unit :=
  ls ← gets localStorage; setLocalStorage (<[key := value]> ls).

Definition removeItem (key : string) : M unit :=
  ls ← gets localStorage;
  setLocalStorage (delete key ls);;
  emit (RemoveItem key).

(** ** The axios instance ([api/client.ts]) *)

(** Request interceptor: attach the access token found in [localStorage] at
    call time. *)
Definition requestInterceptor (config : Config) : M Config :=
  token ← getItem "auth_token";
  match ifTruthy token with
  | Some t => ret (setAuthorization (Some ("Bearer " +:+ t)) config)
  | None => ret config
  end.

(** [apiClient(config)]: the request interceptor, then the adapter.  The
    promise it returns is awaited by [k].  Both steps run in microtasks
    queued by the call; nothing in this program writes [localStorage]
    between the call and those microtasks, so they are performed here. *)
Definition apiClient (config : Config) (k : Kont) : M unit :=
  config' ← requestInterceptor config;
  emit (Dispatch config' k).

Definition isAuthRequest (config : Config) : bool :=
  includes "/auth/login" (url config)
  || includes "/auth/forgot-password" (url config)
  || includes "/auth/reset-password" (url config)
  || includes "/auth/register" (url config).

Definition is401 (status : option nat) : bool :=
  bool_decide (status = Some 401).

(** Response error interceptor of [client.ts]; it ends with
    [Promise.reject(error)], so the next interceptor sees the same error.
    The branches that only log are omitted. *)
Definition clientResponseError (config : Config) (status : option nat)
  : M unit :=
  when (is401 status && negb (isAuthRequest config))
    (removeItem "auth_token";;
     removeItem "user_data";;
     path ← gets pathname;
     when (negb (includes "/login" path))
          (emit (Navigate "/login?reason=unauthorized"))).

(** ** Persisted session slots ([api/auth.ts]) *)

Module authApi.

Definition refreshToken (refreshToken : string) (k : Kont) : M unit :=
  apiClient (mkConfig "/auth/refresh" None false (Some refreshToken)) k.

Definition login (k : Kont) : M unit :=
  apiClient (mkConfig "/auth/login" None false None) k.

(** The [try]/[catch] around the call is in the continuation [KLogout]. *)
Definition logout (k : Kont) : M unit :=
  refreshToken ← getItem "refresh_token";
  apiClient (mkConfig "/auth/logout" None false refreshToken) k.

Definition getStoredUser `{JSON} (ls : gmap string string)
  : Completion (option User) :=
  let userData := ls !! "user_data" in
  match ifTruthy userData with
  | None => Returns None
  | Some text =>
      if String.eqb text "undefined" || String.eqb text "null"
      then Returns None
      else tryCatch (JSON_parse text) (fun _ => Returns None)
  end.

Definition storeUser `{JSON} (user : User) : M unit :=
  setItem "user_data" (JSON_stringify user).

Definition clearUser : M unit :=
  emit ClearUser;;
  removeItem "user_data";;
  removeItem "refresh_token".

Definition isAuthenticated (ls : gmap string string) : bool :=
  truthy (ls !! "auth_token").

Definition getToken : M (option string) := getItem "auth_token".

Definition getRefreshToken : M (option string) := getItem "refresh_token".

Definition storeRefreshToken (token : string) : M unit :=
  setItem "refresh_token" token.

End authApi.

(** ** The provider ([contexts/AuthContext.tsx]) *)

Definition subscribeTokenRefresh (cb : Config * Kont) : M unit :=
  subs ← gets refreshSubscribers;
  setRefreshSubscribers (subs ++ [cb]).

(** The callback built in the [else] branch of the refresh interceptor:
    set the header, then [resolve(apiClient(originalRequest))]. *)
Definition callSubscriber (token : string) (cb : Config * Kont) : M unit :=
  apiClient (setAuthorization (Some ("Bearer " +:+ token)) (fst cb)) (snd cb).

Definition onTokenRefreshed (token : string) : M unit :=
  subs ← gets refreshSubscribers;
  forEach subs (callSubscriber token);;
  setRefreshSubscribers [].

Definition extractUserData (responseData : ResponseData) : option User :=
  match responseData with
  | NoData => None
  | WithUserField u => Some u
  | Direct u => Some u
  end.

(** The context value's [isAuthenticated: !!user]. *)
Definition isAuthenticated (st : State) : bool :=
  match user st with
  | Some _ => true
  | None => false
  end.

Section Provider.
Context {json : JSON}.

(** [initializeAuth], run once on mount. *)
Definition initializeAuth (st : State) : Completion State :=
  match authApi.getStoredUser (localStorage st) with
  | Throws e => Throws e
  | Returns storedUser =>
      let isAuth := authApi.isAuthenticated (localStorage st) in
      let st1 :=
        match storedUser with
        | Some u => if isAuth then fst (exec (setUser (Some u)) st) else st
        | None => st
        end in
      Returns (fst (exec (setIsLoading false) st1))
  end.

(** Body shared by [login] and the refresh interceptor once a user record
    with a token [newToken] has arrived: persist the tokens and the
    identity, then publish the identity. *)
Definition storeSession (userData : User) (newToken : string) : M unit :=
  setItem "auth_token" newToken;;
  match ifTruthy (refresh_token userData) with
  | Some newRefreshToken => authApi.storeRefreshToken newRefreshToken
  | None => ret tt
  end;;
  authApi.storeUser userData;;
  setUser (Some userData).

(** Settling the promise that continuation [k] awaits.

    - [KRefresh]: the rest of the [try] block of the refresh interceptor
      after [await authApi.refreshToken(refreshToken)], and its [catch]
      block.  A missing body makes [userData.token] throw inside the [try].
    - [KLogout]: [authApi.logout] swallows a rejection; then the [finally]
      block of [logout] runs and its promise resolves.
    - [KLogin]: the rest of [login]; its [catch] block, which also catches
      the error thrown inside the [try] for a reply without a token, throws
      a new error made from the one it caught. *)
Fixpoint settle (k : Kont) (r : Settled) : M unit :=
  match k with
  | KCaller p => emit (Settle p r)
  | KRefresh originalRequest k' =>
      let catch (refreshError : JsError) : M unit :=
        setIsRefreshing false;;
        authApi.clearUser;;
        setUser None;;
        settle k' (Rejected refreshError) in
      match r with
      | Rejected e => catch e
      | Fulfilled d =>
          match extractUserData d with
          | None => catch TypeError
          | Some userData =>
              match ifTruthy (token userData) with
              | None => catch (ErrorMessage "No token in refresh response")
              | Some newToken =>
                  storeSession userData newToken;;
                  onTokenRefreshed newToken;;
                  apiClient originalRequest k'
              end
          end
      end
  | KLogout p =>
      removeItem "auth_token";;
      authApi.clearUser;;
      setUser None;;
      setIsLoading false;;
      emit (Settle p (Fulfilled NoData))
  | KLogin p =>
      let catch (error : JsError) : M unit :=
        emit (Settle p (Rejected (LoginError error))) in
      match r with
      | Rejected e => catch e
      | Fulfilled d =>
          match extractUserData d with
          | None => catch (ErrorMessage "Invalid login response")
          | Some userData =>
              match ifTruthy (token userData) with
              | None => catch (ErrorMessage "Invalid login response")
              | Some t =>
                  storeSession userData t;;
                  emit (Settle p (Fulfilled NoData))
              end
          end
      end
  end.

(** Response error interceptor installed by [AuthProvider]. *)
Definition authResponseError (originalRequest : Config) (k : Kont)
  (status : option nat) : M unit :=
  if is401 status && negb (_retry originalRequest) then
    let originalRequest := set_retry true originalRequest in
    refreshToken ← authApi.getRefreshToken;
    match ifTruthy refreshToken with
    | None =>
        authApi.clearUser;;
        setUser None;;
        settle k (Rejected (AxiosError originalRequest status))
    | Some refreshToken =>
        refreshing ← gets isRefreshing;
        if negb refreshing then
          setIsRefreshing true;;
          authApi.refreshToken refreshToken (KRefresh originalRequest k)
        else
          subscribeTokenRefresh (originalRequest, k)
    end
  else
    settle k (Rejected (AxiosError originalRequest status)).

(** The reply to the request [config], awaited by [k], arrives.  Response
    interceptors run in the order they were installed: the one of
    [client.ts] (module load) before the one of [AuthProvider] (mount).
    The fulfilment handlers of both return the response unchanged. *)
Definition onReply (config : Config) (k : Kont) (r : Reply) : M unit :=
  match r with
  | ReplyOk d => settle k (Fulfilled d)
  | ReplyError status =>
      clientResponseError config status;;
      authResponseError config k status
  end.

(** [login] and [logout] of the provider, up to their first [await]. *)
Definition login (p : nat) : M unit :=
  authApi.login (KLogin p).

Definition logout (p : nat) : M unit :=
  setIsLoading true;;
  authApi.logout (KLogout p).

(** What the environment does: a component issues a request, the user logs
    in or out, the reply to a request arrives. *)
Inductive Event : Type :=
| Request (config : Config) (p : nat)
| Login (p : nat)
| Logout (p : nat)
| Response (config : Config) (k : Kont) (r : Reply).

Definition step (ev : Event) : M unit :=
  match ev with
  | Request config p => apiClient config (KCaller p)
  | Login p => login p
  | Logout p => logout p
  | Response config k r => onReply config k r
  end.

Definition run (evs : list Event) : M unit := forEach evs step.

End Provider.

(** ** Route guards ([routes/AppRoutes.tsx]) *)

Inductive GuardOutcome : Type :=
| Loading            (* the spinner *)
| RedirectLogin      (* [<Navigate to="/login">] *)
| RedirectDashboard  (* [<Navigate to="/dashboard">] *)
| Allow.             (* the children *)

Definition ProtectedRoute (st : State) (allowedRoles : option (list UserRole))
  : GuardOutcome :=
  if isLoading st then Loading
  else if negb (isAuthenticated st) then RedirectLogin
  else
    match allowedRoles, user st with
    | Some roles, Some u =>
        if negb (rolesInclude roles (role u)) then RedirectDashboard
        else Allow
    | _, _ => Allow
    end.

Definition AuthRoute (st : State) : GuardOutcome :=
  if isLoading st then Loading
  else if isAuthenticated st then RedirectDashboard
  else Allow.

(** ** A reference [JSON] instance

    The development is parametric in the [JSON] instance, and no theorem
    about the program depends on this one: it serves to run the program on
    concrete data.  It is a codec for the texts that [storeUser] writes, not
    the built-in object: a [User] (with an id below [2 ^ 53] and a name, an
    e-mail address and tokens without control characters) is written as a
    flat object, members in declaration order, absent optional members left
    out; [parse] reads exactly such texts back, reads [null] and [false] as
    falsy values, and answers every other text with [SyntaxError].  Among
    those are texts that the built-in [JSON.parse] accepts: white space
    between tokens, members in another order, members a [User] does not
    have, numbers that are not safe integers.  The concrete runs below
    apply [parse] only to texts written by [stringify] and to a text that
    is not JSON. *)
Module refJSON.

Definition quote : string := String "034"%char EmptyString.
Definition backslash : string := String "092"%char EmptyString.

Definition isQuote (c : ascii) : bool := Ascii.eqb c "034"%char.
Definition isBackslash (c : ascii) : bool := Ascii.eqb c "092"%char.

Fixpoint escape (s : string) : string :=
  match s with
  | EmptyString => EmptyString
  | String c r =>
      if isQuote c || isBackslash c
      then String "092"%char (String c (escape r))
      else String c (escape r)
  end.

Definition str (s : string) : string := quote +:+ escape s +:+ quote.

Definition member (key value : string) : string := str key +:+ ":" +:+ value.

Definition optionalMember (key : string) (value : option string) : string :=
  match value with
  | Some v => "," +:+ member key (str v)
  | None => ""
  end.

Definition stringify (u : User) : string :=
  "{" +:+ member "id" (pretty (id u))
      +:+ "," +:+ member "name" (str (name u))
      +:+ "," +:+ member "email" (str (email u))
      +:+ optionalMember "role" (role u)
      +:+ optionalMember "token" (token u)
      +:+ optionalMember "refresh_token" (refresh_token u)
      +:+ "}".

(** [expect lit s]: the rest of [s] after the prefix [lit]. *)
Fixpoint expect (lit s : string) : option string :=
  match lit, s with
  | EmptyString, _ => Some s
  | String a l, String b r => if Ascii.eqb a b then expect l r else None
  | String _ _, EmptyString => None
  end.

(** The characters up to the closing quote, unescaped, and the rest. *)
Fixpoint readString (s acc : string) : option (string * string) :=
  match s with
  | EmptyString => None
  | String c r =>
      if isQuote c then Some (acc, r)
      else if isBackslash c then
        match r with
        | String d r' => readString r' (acc +:+ String d EmptyString)
        | EmptyString => None
        end
      else readString r (acc +:+ String c EmptyString)
  end.

Definition digit (c : ascii) : option Z :=
  let n := Z.of_nat (nat_of_ascii c) in
  if (48 <=? n)%Z && (n <=? 57)%Z then Some (n - 48)%Z else None.

Fixpoint readDigits (s : string) (acc : option Z) : option Z * string :=
  match s with
  | EmptyString => (acc, s)
  | String c r =>
      match digit c with
      | Some d => readDigits r (Some (10 * default 0%Z acc + d)%Z)
      | None => (acc, s)
      end
  end.

Definition readInt (s : string) : option (Z * string) :=
  match expect "-" s with
  | Some r =>
      match readDigits r None with
      | (Some n, r') => Some ((- n)%Z, r')
      | (None, _) => None
      end
  | None =>
      match readDigits s None with
      | (Some n, r') => Some (n, r')
      | (None, _) => None
      end
  end.

Definition readMember (key s : string) : option (string * string) :=
  s1 ← expect (member key quote) s;
  readString s1 "".

Definition readOptionalMember (key s : string) : option string * string :=
  match expect "," s ≫= readMember key with
  | Some (v, r) => (Some v, r)
  | None => (None, s)
  end.

Definition parseUser (s : string) : option User :=
  s ← expect ("{" +:+ member "id" "") s;
  '(i, s) ← readInt s;
  s ← expect "," s;
  '(n, s) ← readMember "name" s;
  s ← expect "," s;
  '(e, s) ← readMember "email" s;
  let '(r, s) := readOptionalMember "role" s in
  let '(t, s) := readOptionalMember "token" s in
  let '(rt, s) := readOptionalMember "refresh_token" s in
  s ← expect "}" s;
  if String.eqb s "" then Some (mkUser i n e r t rt) else None.

Definition parse (s : string) : Completion (option User) :=
  if String.eqb s "null" || String.eqb s "false" then Returns None
  else
    match parseUser s with
    | Some u => Returns (Some u)
    | None => Throws SyntaxError
    end.

End refJSON.

Definition refJSON : JSON :=
  {| JSON_parse := refJSON.parse; JSON_stringify := refJSON.stringify |}.


(** ** Observations on traces *)

Definition isRefreshCall (e : Effect) : bool :=
  match e with
  | Dispatch c _ => String.eqb (url c) "/auth/refresh"
  | _ => false
  end.

(** The calls to the refresh endpoint in a trace. *)
Definition refreshCalls (t : list Effect) : list Effect :=
  List.filter isRefreshCall t.

Definition isClearUser (e : Effect) : bool :=
  match e with
  | ClearUser => true
  | _ => false
  end.

(** How often [authApi.clearUser] was called. *)
Definition clearUserCalls (t : list Effect) : nat :=
  length (List.filter isClearUser t).

(** The component promises whose requests are put on the wire, in order;
    calls to the refresh endpoint are not counted. *)
Fixpoint dispatchedCallers (t : list Effect) : list nat :=
  match t with
  | [] => []
  | Dispatch c (KCaller p) :: t' =>
      if isRefreshCall (Dispatch c (KCaller p)) then dispatchedCallers t'
      else p :: dispatchedCallers t'
  | _ :: t' => dispatchedCallers t'
  end.

(** The component promises that settle in a trace, in order. *)
Fixpoint settledPromises (t : list Effect) : list (nat * Settled) :=
  match t with
  | [] => []
  | Settle p r :: t' => (p, r) :: settledPromises t'
  | _ :: t' => settledPromises t'
  end.

Definition isRejected (r : Settled) : bool :=
  match r with
  | Rejected _ => true
  | Fulfilled _ => false
  end.

(** The promises rejected in a trace. *)
Definition rejectedPromises (t : list Effect) : list nat :=
  (List.filter (fun x => isRejected (snd x)) (settledPromises t)).*1.

(** The promise at the end of a chain of continuations: that of the
    component, of [login] or of [logout] whose request started the chain. *)
Fixpoint promiseOf (k : Kont) : nat :=
  match k with
  | KCaller p | KLogout p | KLogin p => p
  | KRefresh _ k' => promiseOf k'
  end.

(** The promises that wait in the queue. *)
Definition queuedPromises (st : State) : list nat :=
  map (fun cb : Config * Kont => promiseOf (snd cb)) (refreshSubscribers st).



(** The request a queued or triggering entry is replayed as, once the token
    [token] has been obtained. *)
Definition replay (token : string) (cb : Config * Kont) : Effect :=
  Dispatch (setAuthorization (Some ("Bearer " +:+ token)) (fst cb)) (snd cb).

(** [localStorage] after the refresh interceptor (or [login]) has stored the
    tokens and the identity of [userData]. *)
Definition committedStorage `{JSON} (userData : User) (newToken : string)
  (ls : gmap string string) : gmap string string :=
  <["user_data" := JSON_stringify userData]>
    (match ifTruthy (refresh_token userData) with
     | Some newRefreshToken => <["refresh_token" := newRefreshToken]>
     | None => fun m => m
     end (<["auth_token" := newToken]> ls)).

(** The mark the refresh interceptor leaves on a request it has seen. *)
Definition marked (cb : Config * Kont) : Config * Kont :=
  (set_retry true (fst cb), snd cb).

Definition isNavigate (e : Effect) : bool :=
  match e with
  | Navigate _ => true
  | _ => false
  end.

(** The navigations in a trace. *)
Definition navigations (t : list Effect) : list Effect :=
  List.filter isNavigate t.

(** The persisted identity is missing or unreadable: the key is absent, or
    holds the text [undefined] or [null], or a text [JSON.parse] rejects. *)
Definition corruptedIdentity `{JSON} (ls : gmap string string) : Prop :=
  ls !! "user_data" = None
  \/ ls !! "user_data" = Some "undefined"
  \/ ls !! "user_data" = Some "null"
  \/ exists text e, ls !! "user_data" = Some text /\ JSON_parse text = Throws e.

(** [localStorage] after the [finally] block of [logout]. *)
Definition clearedStorage (ls : gmap string string) : gmap string string :=
  delete "refresh_token" (delete "user_data" (delete "auth_token" ls)).

(** The persisted session slots. *)
Definition sessionSlots : list string :=
  ["auth_token"; "refresh_token"; "user_data"].

Definition slotsEmpty (ls : gmap string string) : Prop :=
  Forall (fun key => ls !! key = None) sessionSlots.

(** The 401 reply. *)
Definition unauthorized : Reply := ReplyError (Some 401).

(** What the interceptor of [client.ts] logs on a 401 for a request that is
    not an authentication request, when the page is at [path]. *)
Definition gatewayTrace (path : string) : list Effect :=
  [RemoveItem "auth_token"; RemoveItem "user_data"] ++
  if includes "/login" path then []
  else [Navigate "/login?reason=unauthorized"].

(** The state the same interceptor leaves. *)
Definition gatewayState (st : State) : State :=
  mkState (delete "user_data" (delete "auth_token" (localStorage st)))
          (user st) (isLoading st) (isRefreshing st)
          (refreshSubscribers st) (pathname st).

(** The 401 reply to a pending request, as an event. *)
Definition unauthorizedReply (cb : Config * Kont) : Event :=
  Response (fst cb) (snd cb) unauthorized.

(** An error reply to a pending request, as an event. *)
Definition errorReply (x : Config * Kont * option nat) : Event :=
  Response (fst (fst x)) (snd (fst x)) (ReplyError (snd x)).

(** A request the refresh interceptor has not seen and that does not target
    an authentication endpoint. *)
Definition freshRequest (cb : Config * Kont) : Prop :=
  _retry (fst cb) = false /\ isAuthRequest (fst cb) = false.

(** The request that a call of [logout] in state [st] puts on the wire:
    the request interceptor attaches the persisted access token, the body
    holds the persisted refresh token. *)
Definition logoutRequest (st : State) : Config :=
  mkConfig "/auth/logout"
    (match ifTruthy (localStorage st !! "auth_token") with
     | Some t => Some ("Bearer " +:+ t)
     | None => None
     end)
    false (localStorage st !! "refresh_token").

(** [logout] is called in state [st] and the backend answers its request
    with a 401.  If the coordinator's flag is lowered, that 401 starts a
    refresh call with the persisted refresh token [rt], and the backend
    answers that call with a 401 as well. *)
Definition logoutUnauthorized (st : State) (p : nat) (rt : string)
  : list Event :=
  [Logout p; Response (logoutRequest st) (KLogout p) unauthorized]
  ++ if isRefreshing st then []
     else [Response (mkConfig "/auth/refresh" None false (Some rt))
                    (KRefresh (set_retry true (logoutRequest st)) (KLogout p))
                    unauthorized].

(** ** A concrete session

    An administrator is signed in on the dashboard; three components issue
    requests (promises 1, 2 and 3, in that order) with the access token
    [t0], which the backend no longer accepts. *)

Definition alice : User :=
  mkUser 7 "Alice" "alice@example.com" (Some "admin") (Some "t1") (Some "r1").

Definition signedIn : State :=
  mkState (<["auth_token" := "t0"]>
             (<["refresh_token" := "r0"]>
                (<["user_data" := refJSON.stringify alice]> ∅)))
          (Some alice) false false [] "/dashboard".

Definition usersRequest : Config :=
  mkConfig "/users" (Some "Bearer t0") false None.

Definition merchantsRequest : Config :=
  mkConfig "/merchants" (Some "Bearer t0") false None.

Definition dashboardRequest : Config :=
  mkConfig "/dashboard" (Some "Bearer t0") false None.

Definition settingsRequest : Config :=
  mkConfig "/settings/profile" (Some "Bearer t1") false None.

Definition loginRequest : Config :=
  mkConfig "/auth/login" None false None.

(** The refresh call that the 401 of [usersRequest] triggers, and the
    continuation its reply resumes. *)
Definition refreshRequest : Config :=
  mkConfig "/auth/refresh" None false (Some "r0").

Definition refreshResume : Kont :=
  KRefresh (set_retry true usersRequest) (KCaller 1).

(** The three requests receive their 401 in the order they were issued. *)
Definition threeUnauthorized : list Event :=
  map unauthorizedReply
      [(usersRequest, KCaller 1); (merchantsRequest, KCaller 2);
       (dashboardRequest, KCaller 3)].

(** ... and then the refresh call succeeds. *)
Definition refreshSucceeds : list Event :=
  threeUnauthorized
  ++ [Response refreshRequest refreshResume (ReplyOk (WithUserField alice))].

(** ... or the refresh call is answered with the given error. *)
Definition refreshFails (status : option nat) : list Event :=
  threeUnauthorized
  ++ [Response refreshRequest refreshResume (ReplyError status)].

(** The same session after the refresh token has been lost. *)
Definition signedInNoRefreshToken : State :=
  mkState (delete "refresh_token" (localStorage signedIn))
          (Some alice) false false [] "/dashboard".

(** Nobody is signed in; the login page is shown. *)
Definition signedOut : State :=
  mkState ∅ None false false [] "/login".

(** A reload with a persisted access token but no persisted identity. *)
Definition tokenOnly : State :=
  mkState (<["auth_token" := "t0"]> ∅) None true false [] "/dashboard".

(** A reload with a persisted identity that is not JSON. *)
Definition corrupted : State :=
  mkState (<["auth_token" := "t0"]> (<["user_data" := "{oops"]> ∅))
          None true false [] "/dashboard".

(** ** The role predicates of the hook ([usePermission.ts]) *)

(** [user?.role === 'super_admin'], and likewise for the two other roles. *)
Definition isSuperAdmin (user : option User) : bool :=
  match user with
  | Some u => bool_decide (role u = Some "super_admin")
  | None => false
  end.

Definition isAdmin (user : option User) : bool :=
  match user with
  | Some u => bool_decide (role u = Some "admin")
  | None => false
  end.

Definition isMerchant (user : option User) : bool :=
  match user with
  | Some u => bool_decide (role u = Some "merchant")
  | None => false
  end.

(** ** The sidebar ([components/layout/Sidebar.tsx]) *)

Module Sidebar.

Record Item : Type := mkItem {
  name : string;
  href : string;
  roles : list string
}.

Definition navigation : list Item :=
  [ mkItem "Dashboard" "/dashboard" ["super_admin"; "admin"; "merchant"];
    mkItem "Users" "/users" ["super_admin"];
    mkItem "Merchants" "/merchants" ["super_admin"; "admin"] ].

(** [user?.role || '']. *)
Definition roleOrEmpty (user : option User) : string :=
  match user with
  | Some u => default "" (ifTruthy (role u))
  | None => ""
  end.

(** [navigation.filter(item => item.roles.includes(user?.role || ''))]. *)
Definition filteredNavigation (user : option User) : list Item :=
  List.filter (fun item => existsb (String.eqb (roleOrEmpty user)) (roles item))
              navigation.

End Sidebar.

(** ** The route table ([routes/AppRoutes.tsx]) and the page wrappers *)

(** What a route element renders to. *)
Inductive View : Type :=
| Spinner
| RedirectTo (to : string)       (* a [<Navigate to=... replace />] *)
| PermissionDenied               (* the panel of [UsersPage] / [MerchantsPage] *)
| Shows (component : string).

(** The elements of the table: pages, [<Navigate>], the two guards, and the
    components that render an [<Outlet />]. *)
Inductive Element : Type :=
| Component (component : string)
| NavigateTo (to : string)
| WithAuthRoute (children : Element)
| WithProtectedRoute (allowedRoles : option (list UserRole)) (children : Element)
| WithMainLayout (outlet : Element)
| WithUsersPage (outlet : Element)
| WithMerchantsPage (outlet : Element).

(** [UsersPage] ([pages/users/UsersPage.tsx]) renders its outlet unless
    [!isSuperAdmin()]. *)
Definition UsersPage (st : State) : bool :=
  isSuperAdmin (user st).

(** [MerchantsPage] renders its outlet unless
    [!isSuperAdmin() && !isAdmin()]. *)
Definition MerchantsPage (st : State) : bool :=
  negb (negb (isSuperAdmin (user st)) && negb (isAdmin (user st))).

Definition viewOfGuard (g : GuardOutcome) (children : View) : View :=
  match g with
  | Loading => Spinner
  | RedirectLogin => RedirectTo "/login"
  | RedirectDashboard => RedirectTo "/dashboard"
  | Allow => children
  end.

Fixpoint render (st : State) (e : Element) : View :=
  match e with
  | Component c => Shows c
  | NavigateTo to => RedirectTo to
  | WithAuthRoute children => viewOfGuard (AuthRoute st) (render st children)
  | WithProtectedRoute allowedRoles children =>
      viewOfGuard (ProtectedRoute st allowedRoles) (render st children)
  | WithMainLayout outlet => render st outlet
  | WithUsersPage outlet =>
      if UsersPage st then render st outlet else PermissionDenied
  | WithMerchantsPage outlet =>
      if MerchantsPage st then render st outlet else PermissionDenied
  end.

(** The table of [createBrowserRouter], for a location path.  The static
    paths are matched exactly; every other path falls to the catch-all
    route ([react-router]'s ranking, letter case and trailing slashes are
    not modelled). *)
Definition router (path : string) : Element :=
  if String.eqb path "/login" then WithAuthRoute (Component "LoginPage")
  else if String.eqb path "/forgot-password"
  then WithAuthRoute (Component "ForgotPasswordPage")
  else if String.eqb path "/reset-password"
  then WithAuthRoute (Component "ResetPasswordPage")
  else if String.eqb path "/"
  then WithProtectedRoute None (WithMainLayout (NavigateTo "/dashboard"))
  else if String.eqb path "/dashboard"
  then WithProtectedRoute None (WithMainLayout (Component "DashboardPage"))
  else if String.eqb path "/users"
  then WithProtectedRoute None
         (WithMainLayout
            (WithProtectedRoute (Some [super_admin])
               (WithUsersPage (Component "UsersListingPage"))))
  else if String.eqb path "/merchants"
  then WithProtectedRoute None
         (WithMainLayout
            (WithProtectedRoute (Some [super_admin; admin])
               (WithMerchantsPage (Component "MerchantsListingPage"))))
  else if String.eqb path "/settings"
  then WithProtectedRoute None (WithMainLayout (Component "SettingsPage"))
  else NavigateTo "/dashboard".

(** Opening [path] and following at most [redirects] redirects. *)
Fixpoint visit (redirects : nat) (st : State) (path : string) : View :=
  match render st (router path) with
  | RedirectTo to =>
      match redirects with
      | O => RedirectTo to
      | S n => visit n st to
      end
  | v => v
  end.

(** ** The rest of the provider ([contexts/AuthContext.tsx]) *)

(** How [response.data.data] of the profile endpoint reaches [refreshUser]:
    a user record, [undefined] or [null], or not at all (the request was
    rejected, or the reply had no body and [response.data.data] threw). *)
Inductive ProfileReply : Type :=
| ProfileUser (u : User)
| ProfileUndefined
| ProfileNull
| ProfileFailed.

Section MoreOfTheProvider.
Context {json : JSON}.

(** [register] up to its [await]; the promise of
    [apiClient.post('/auth/register', data)] is promise [p]. *)
Definition register (p : nat) : M unit :=
  setIsLoading true;;
  apiClient (mkConfig "/auth/register" None false None) (KCaller p).

(** The rest of [register] once promise [p] has settled with [r], [finally]
    block included; the result is how the promise of [register] settles. *)
Definition registerSettled (r : Settled) : M Settled :=
  result ←
    match r with
    | Rejected e => mret (Rejected e)
    | Fulfilled d =>
        match extractUserData d with
        | None => mret (Rejected (ErrorMessage "Invalid register response"))
        | Some userData =>
            match ifTruthy (token userData) with
            | None => mret (Rejected (ErrorMessage "Invalid register response"))
            | Some t => storeSession userData t;; mret (Fulfilled NoData)
            end
        end
    end;
  setIsLoading false;;
  mret result.

(** [refreshUser] up to its [await]: [settingsApi.profile.get()]. *)
Definition refreshUser (p : nat) : M unit :=
  apiClient (mkConfig "/settings/profile" None false None) (KCaller p).

(** The rest of [refreshUser]; its [catch] block only logs.
    [JSON.stringify] of [undefined] is [undefined], which [setItem] stores
    as the text ["undefined"]; of [null] it is the text ["null"]. *)
Definition refreshUserSettled (r : ProfileReply) : M unit :=
  match r with
  | ProfileUser userData =>
      authApi.storeUser userData;;
      setUser (Some userData)
  | ProfileUndefined =>
      setItem "user_data" "undefined";;
      setUser None
  | ProfileNull =>
      setItem "user_data" "null";;
      setUser None
  | ProfileFailed => mret tt
  end.

End MoreOfTheProvider.

(** A page load: [localStorage] and the location survive; the React state
    of the provider and the module-level refresh state start from their
    initial values. *)
Definition reload (st : State) : State :=
  mkState (localStorage st) None true false [] (pathname st).

(** [JSON.stringify] of a user record is the text of an object: it is not
    empty and is neither ["undefined"] nor ["null"]; and [JSON.parse] reads
    it back. *)
Definition roundTrips `{JSON} (u : User) : Prop :=
  JSON_parse (JSON_stringify u) = Returns (Some u)
  /\ JSON_stringify u <> ""
  /\ JSON_stringify u <> "undefined"
  /\ JSON_stringify u <> "null".

(** Every request in the queue carries the retry mark. *)
Definition queueMarked (st : State) : Prop :=
  Forall (fun cb : Config * Kont => _retry (fst cb) = true)
         (refreshSubscribers st).

(** The computation [m] keeps the property [I] of the state. *)
Definition Preserves {A : Type} (I : State -> Prop) (m : M A) : Prop :=
  forall st, I st -> I (snd (fst (m st))).

(** The value of a [localStorage] key that is not a session slot. *)
Definition foreignKey (key : string) (value : option string) (st : State)
  : Prop :=
  localStorage st !! key = value.

(** A page load in state [st] publishes the identity [u] again and ends the
    loading phase. *)
Definition restoredBy `{JSON} (u : User) (st : State) : Prop :=
  initializeAuth (reload st)
  = Returns (mkState (localStorage st) (Some u) false false [] (pathname st)).

(** ** Utilities ([src/utils/helpers.ts]) *)
Module helpers.

Local Open Scope Z_scope.

(** In this part a JavaScript string is the sequence of its UTF-16 code
    units ([list Z]): the functions index, slice and match strings by code
    unit.  [codeUnits] gives the code units of a string literal whose
    characters are all below 256. *)
Definition codeUnits (s : string) : list Z :=
  map (fun a => Z.of_N (N_of_ascii a)) (list_ascii_of_string s).

(** [String.prototype.slice] with integral arguments: a negative index
    counts from the end, and both indices are clamped to the string. *)
Definition slice (s : list Z) (start end_ : Z) : list Z :=
  let len := Z.of_nat (length s) in
  let from := if start <? 0 then Z.max (len + start) 0 else Z.min start len in
  let to := if end_ <? 0 then Z.max (len + end_) 0 else Z.min end_ len in
  take (Z.to_nat (to - from)) (drop (Z.to_nat from) s).

(** [maxLength] is an integral number. *)
Definition truncateText (text : list Z) (maxLength : Z) : list Z :=
  if Z.of_nat (length text) <=? maxLength then text
  else slice text 0 maxLength ++ codeUnits "...".

(** [ToInt32]. *)
Definition toInt32 (x : Z) : Z :=
  let m := x mod 2 ^ 32 in
  if 2 ^ 31 <=? m then m - 2 ^ 32 else m.

(** [x << n]: both operands are converted, the shift count is taken modulo
    32 and the result is a signed 32-bit integer. *)
Definition shiftLeft (x n : Z) : Z :=
  toInt32 (Z.shiftl (toInt32 x) (n mod 32)).

Definition colors : list string :=
  [ "bg-red-500"; "bg-orange-500"; "bg-amber-500"; "bg-yellow-500";
    "bg-lime-500"; "bg-green-500"; "bg-emerald-500"; "bg-teal-500";
    "bg-cyan-500"; "bg-sky-500"; "bg-blue-500"; "bg-indigo-500";
    "bg-violet-500"; "bg-purple-500"; "bg-fuchsia-500"; "bg-pink-500";
    "bg-rose-500" ].

(** The reducer of [generateAvatarColor].  The accumulator is a number, not
    a 32-bit integer: only [acc << 5] wraps around. *)
Definition hashStep (acc char : Z) : Z :=
  char + (shiftLeft acc 5 - acc).

Definition hash (name : list Z) : Z :=
  fold_left hashStep name 0.

(** [None] is [undefined], the value of an index outside the array.  The
    arithmetic is that of the integers, which is the arithmetic of the
    source as long as every value is a safe integer (below [2 ^ 53] in
    absolute value). *)
Definition generateAvatarColor (name : list Z) : option string :=
  colors !! Z.to_nat (Z.abs (hash name) mod Z.of_nat (length colors)).

(** *** Regular expressions

    The regular expressions of the sources use character classes,
    concatenation and [+] only, so that [RegExp.prototype.test] decides
    membership in a regular language; it is computed with derivatives. *)
Inductive Regex : Type :=
| Nothing
| Epsilon
| Class (p : Z -> bool)
| Cat (r1 r2 : Regex)
| Alt (r1 r2 : Regex)
| Star (r : Regex).

(** [r+]. *)
Definition Plus (r : Regex) : Regex := Cat r (Star r).

Fixpoint nullable (r : Regex) : bool :=
  match r with
  | Nothing => false
  | Epsilon => true
  | Class _ => false
  | Cat r1 r2 => nullable r1 && nullable r2
  | Alt r1 r2 => nullable r1 || nullable r2
  | Star _ => true
  end.

Fixpoint derivative (c : Z) (r : Regex) : Regex :=
  match r with
  | Nothing => Nothing
  | Epsilon => Nothing
  | Class p => if p c then Epsilon else Nothing
  | Cat r1 r2 =>
      if nullable r1
      then Alt (Cat (derivative c r1) r2) (derivative c r2)
      else Cat (derivative c r1) r2
  | Alt r1 r2 => Alt (derivative c r1) (derivative c r2)
  | Star r1 => Cat (derivative c r1) (Star r1)
  end.

(** [/^r$/.test(s)]: the whole of [s] matches [r]. *)
Definition testAnchored (r : Regex) (s : list Z) : bool :=
  nullable (fold_left (fun r c => derivative c r) s r).

(** [/r/.test(s)]: some substring of [s] matches [r]. *)
Definition test (r : Regex) (s : list Z) : bool :=
  let any := Star (Class (fun _ => true)) in
  testAnchored (Cat any (Cat r any)) s.

(** The class [\s]: white space and line terminators. *)
Definition whiteSpace (c : Z) : bool :=
  bool_decide (c ∈ [ 9; 10; 11; 12; 13; 32; 160; 5760; 8232; 8233; 8239;
                     8287; 12288; 65279 ])
  || ((8192 <=? c) && (c <=? 8202)).

(** The class [[^\s@]]. *)
Definition notSpaceNorAt (c : Z) : bool :=
  negb (whiteSpace c || (c =? 64)).

(** [/^[^\s@]+@[^\s@]+\.[^\s@]+$/]. *)
Definition emailRegex : Regex :=
  Cat (Plus (Class notSpaceNorAt))
      (Cat (Class (fun c => c =? 64))
           (Cat (Plus (Class notSpaceNorAt))
                (Cat (Class (fun c => c =? 46))
                     (Plus (Class notSpaceNorAt))))).

Definition isValidEmail (email : list Z) : bool :=
  testAnchored emailRegex email.

(** The strings that match a regular expression. *)
Inductive Matches : Regex -> list Z -> Prop :=
| MEpsilon : Matches Epsilon []
| MClass p c : p c = true -> Matches (Class p) [c]
| MCat r1 r2 s1 s2 :
    Matches r1 s1 -> Matches r2 s2 -> Matches (Cat r1 r2) (s1 ++ s2)
| MAltL r1 r2 s : Matches r1 s -> Matches (Alt r1 r2) s
| MAltR r1 r2 s : Matches r2 s -> Matches (Alt r1 r2) s
| MStarNil r : Matches (Star r) []
| MStarCons r s1 s2 :
    Matches r s1 -> Matches (Star r) s2 -> Matches (Star r) (s1 ++ s2).

End helpers.

(** ** Form schemas ([src/validations/schemas/auth.ts], [user.ts])

    A schema is modelled by the predicate [safeParse(data).success].  Of
    zod: [z.string()] rejects an absent value unless it is [.optional()],
    [.min(n)] compares the length of the string, [.regex(r)] is [r.test],
    [z.enum] is membership, and a [.refine] adds its predicate.  The test
    of [.email()] is zod's own and is a parameter. *)
Module schemas.
Section Schemas.

Variable zodEmail : string -> bool.

(** [z.string()] followed by checks. *)
Definition required (check : string -> bool) (v : option string) : bool :=
  match v with
  | Some s => check s
  | None => false
  end.

(** [z.string()...optional()]. *)
Definition optional (check : string -> bool) (v : option string) : bool :=
  match v with
  | Some s => check s
  | None => true
  end.

Definition min (n : nat) (s : string) : bool :=
  (n <=? String.length s)%nat.

Definition regex (r : helpers.Regex) (s : string) : bool :=
  helpers.test r (helpers.codeUnits s).

Definition between (lo hi : string) : helpers.Regex :=
  let lo := helpers.codeUnits lo in
  let hi := helpers.codeUnits hi in
  helpers.Class (fun c => (default 0 (head lo) <=? c)%Z && (c <=? default 0 (head hi))%Z).

Definition email (s : string) : bool := min 1 s && zodEmail s.

Record LoginFormData : Type := mkLoginFormData {
  login_email : option string;
  login_password : option string
}.

Definition loginSchema (data : LoginFormData) : bool :=
  required email (login_email data)
  && required (fun s => min 1 s && min 6 s) (login_password data).

(** The forms of [registerSchema], [createUserSchema] and
    [updateUserSchema] have the same members. *)
Record UserFormData : Type := mkUserFormData {
  form_name : option string;
  form_email : option string;
  form_password : option string;
  form_password_confirmation : option string;
  form_role : option string
}.

Definition roleEnum (s : string) : bool :=
  bool_decide (s ∈ ["admin"; "merchant"]).

Definition registerSchema (data : UserFormData) : bool :=
  required (fun s => min 1 s && min 2 s) (form_name data)
  && required email (form_email data)
  && required (fun s => min 1 s && min 6 s) (form_password data)
  && required (min 1) (form_password_confirmation data)
  && required roleEnum (form_role data)
  && bool_decide (form_password data = form_password_confirmation data).

Definition createUserSchema (data : UserFormData) : bool :=
  required (fun s => min 1 s && min 2 s) (form_name data)
  && required email (form_email data)
  && required (fun s => min 1 s && min 6 s) (form_password data)
  && required (min 1) (form_password_confirmation data)
  && required roleEnum (form_role data)
  && bool_decide (form_password data = form_password_confirmation data).

(** The refinement of [updateUserSchema]. *)
Definition updateUserRefinement (data : UserFormData) : bool :=
  if truthy (form_password data) && negb (truthy (form_password_confirmation data))
  then false
  else if truthy (form_password data) && truthy (form_password_confirmation data)
  then bool_decide (form_password data = form_password_confirmation data)
  else true.

Definition updateUserSchema (data : UserFormData) : bool :=
  optional (fun s => min 1 s && min 2 s) (form_name data)
  && optional email (form_email data)
  && optional (min 6) (form_password data)
  && optional (fun _ => true) (form_password_confirmation data)
  && optional roleEnum (form_role data)
  && updateUserRefinement data.

Record ResetPasswordFormData : Type := mkResetPasswordFormData {
  reset_email : option string;
  reset_token : option string;
  reset_password : option string;
  reset_password_confirmation : option string
}.

Definition resetPasswordSchema (data : ResetPasswordFormData) : bool :=
  required email (reset_email data)
  && required (min 1) (reset_token data)
  && required (fun s => min 1 s && min 8 s
                        && regex (between "A" "Z") s
                        && regex (between "a" "z") s
                        && regex (between "0" "9") s)
              (reset_password data)
  && required (min 1) (reset_password_confirmation data)
  && bool_decide (reset_password data = reset_password_confirmation data).

End Schemas.
End schemas.

(** ** Reasoning about computations in [M] *)

Ltac unfold_m :=
  cbv beta iota zeta delta
    [exec when forEach mbind M_bind bind mret M_ret ret gets emit
     getItem setItem removeItem setLocalStorage setUser setIsLoading
     setIsRefreshing setRefreshSubscribers requestInterceptor apiClient
     authApi.clearUser authApi.getRefreshToken authApi.getToken
     authApi.storeRefreshToken authApi.storeUser authApi.refreshToken
     authApi.login authApi.logout subscribeTokenRefresh
     localStorage user isLoading isRefreshing refreshSubscribers pathname
     fst snd]; cbn.

(** * Properties *)

(** ** Role permission table *)

Lemma rolePermissions_own (key : string) :
  rolePermissions !! key =
    if String.eqb key "super_admin" then Some superAdminPermissions
    else if String.eqb key "admin" then Some adminPermissions
    else if String.eqb key "merchant" then Some merchantPermissions
    else None.
Proof.
  unfold rolePermissions.
  destruct (String.eqb_spec key "super_admin") as [->|H1]; [done|].
  rewrite lookup_insert_ne by done.
  destruct (String.eqb_spec key "admin") as [->|H2]; [done|].
  rewrite lookup_insert_ne by done.
  destruct (String.eqb_spec key "merchant") as [->|H3]; [done|].
  by rewrite lookup_insert_ne.
Qed.

(** The three roles of the enum get the documented flags. *)
Lemma getPermissions_known_role (u : User) (r : UserRole) :
  role u = Some (roleName r) ->
  getPermissions (Some u) =
    Own match r with
        | super_admin => superAdminPermissions
        | admin => adminPermissions
        | merchant => merchantPermissions
        end.
Proof.
  intros Hr. unfold getPermissions, getProperty. rewrite Hr. cbn.
  rewrite rolePermissions_own. by destruct r.
Qed.

(** A role that names neither a table entry nor a member of
    [Object.prototype] falls back to the merchant set; so does an absent
    role. *)
Lemma getPermissions_fallback (u : User) :
  rolePermissions !! toPropertyKey (role u) = None ->
  toPropertyKey (role u) ∉ objectPrototypeKeys ->
  getPermissions (Some u) = Own merchantPermissions.
Proof.
  intros Hown Hproto. unfold getPermissions, getProperty.
  rewrite Hown. by case_bool_decide.
Qed.

Lemma getPermissions_absent_role (u : User) :
  role u = None -> getPermissions (Some u) = Own merchantPermissions.
Proof.
  intros Hr. apply getPermissions_fallback; rewrite Hr; cbn.
  - by rewrite rolePermissions_own.
  - intros Hin. by apply (bool_decide_pack _) in Hin.
Qed.

(** Whatever the role, no flag is granted beyond the merchant set unless the
    role is [admin] or [super_admin]. *)
Lemma hasPermission_unknown_role (u : User) (k : PermissionKey) :
  role u <> Some "super_admin" -> role u <> Some "admin" ->
  hasPermission (Some u) k = true -> k = KCanViewMerchants.
Proof.
  intros Hs Ha. unfold hasPermission, getPermissions, getProperty.
  rewrite rolePermissions_own.
  destruct (role u) as [r|]; cbn.
  - destruct (String.eqb_spec r "super_admin") as [->|_]; [done|].
    destruct (String.eqb_spec r "admin") as [->|_]; [done|].
    destruct (String.eqb_spec r "merchant") as [->|_].
    + by destruct k.
    + case_bool_decide; cbn; [done|]. by destruct k.
  - by destruct k.
Qed.

Lemma rolePermissions_prototype_key (key : string) :
  key ∈ objectPrototypeKeys -> rolePermissions !! key = None.
Proof.
  intros Hkey. rewrite rolePermissions_own. unfold objectPrototypeKeys in Hkey.
  repeat (apply elem_of_cons in Hkey as [-> | Hkey]; [done|]).
  by apply elem_of_nil in Hkey.
Qed.

(** C5.  [getPermissions] is a lookup in the [rolePermissions] object
    literal followed by [|| rolePermissions.merchant].  For an unknown role
    that happens to name a member inherited from [Object.prototype], such
    as ["constructor"], the lookup yields that member, which is truthy, and
    the fallback to the merchant set is not taken: the result is not a
    permission set at all and every [hasPermission] query answers [false],
    including [canViewMerchants], which the merchant set grants. *)
Theorem getPermissions_prototype_key (u : User) (key : string)
  (Hrole : role u = Some key) (Hkey : key ∈ objectPrototypeKeys) :
  getPermissions (Some u) = Inherited key
  /\ getPermissions (Some u) <> Own merchantPermissions
  /\ (forall k, hasPermission (Some u) k = false)
  /\ readFlag merchantPermissions KCanViewMerchants = true.
Proof.
  assert (Hget : getPermissions (Some u) = Inherited key).
  { unfold getPermissions, getProperty. rewrite Hrole. cbn [toPropertyKey].
    rewrite rolePermissions_prototype_key by done.
    by rewrite bool_decide_eq_true_2. }
  repeat split; [done|by rewrite Hget|].
  intros k. unfold hasPermission. by rewrite Hget.
Qed.

(** ** Route guard *)

Lemma rolesInclude_spec (roles : list UserRole) (r : option string) :
  rolesInclude roles r = true <-> exists a, a ∈ roles /\ r = Some (roleName a).
Proof.
  unfold rolesInclude. rewrite existsb_exists. split.
  - intros (a & Hin & Ha). exists a. split; [by apply list_elem_of_In|].
    by apply bool_decide_eq_true_1 in Ha.
  - intros (a & Hin & ->). exists a. split; [by apply list_elem_of_In|].
    by apply bool_decide_eq_true_2.
Qed.

(** C6.  Once the session is initialised ([isLoading] is false):
    a merchant is redirected to the default view by the allowlist
    [super_admin, admin]; an admin is allowed by it; without a published
    identity every allowlist (and no allowlist) redirects to login; and an
    authenticated user is allowed by an allowlist exactly when the user's
    role string is one of the listed roles, so [super_admin] does not pass
    an [admin]-only allowlist. *)
Theorem ProtectedRoute_decision (st : State) (Hinit : isLoading st = false) :
  (forall u, user st = Some u -> role u = Some "merchant" ->
     ProtectedRoute st (Some [super_admin; admin]) = RedirectDashboard)
  /\ (forall u, user st = Some u -> role u = Some "admin" ->
     ProtectedRoute st (Some [super_admin; admin]) = Allow)
  /\ (user st = None ->
     forall allowedRoles, ProtectedRoute st allowedRoles = RedirectLogin)
  /\ (forall u roles, user st = Some u ->
     (ProtectedRoute st (Some roles) = Allow
        <-> exists a, a ∈ roles /\ role u = Some (roleName a))
     /\ (ProtectedRoute st (Some roles) = RedirectDashboard
        <-> ~ exists a, a ∈ roles /\ role u = Some (roleName a)))
  /\ (forall u, user st = Some u -> role u = Some "super_admin" ->
     ProtectedRoute st (Some [admin]) = RedirectDashboard).
Proof.
  unfold ProtectedRoute, isAuthenticated. rewrite Hinit.
  split; [|split; [|split; [|split]]].
  - intros u -> Hr. cbn. by rewrite Hr.
  - intros u -> Hr. cbn. by rewrite Hr.
  - by intros ->.
  - intros u roles ->. cbn. rewrite <- rolesInclude_spec.
    destruct (rolesInclude roles (role u)); split; split; try done.
    all: intros Hno; by destruct Hno.
  - intros u -> Hr. cbn. by rewrite Hr.
Qed.

Lemma is401_unauthorized : is401 (Some 401) = true.
Proof. done. Qed.

Section Coordinator.
Context {json : JSON}.

(** What the interceptor of [client.ts] does on a 401 for a request that is
    not an authentication request. *)
Lemma clientResponseError_unauthorized (config : Config) (st : State) :
  isAuthRequest config = false ->
  exec (clientResponseError config (Some 401)) st =
    (gatewayState st, gatewayTrace (pathname st)).
Proof.
  intros Hauth. unfold clientResponseError, gatewayState, gatewayTrace.
  rewrite Hauth, is401_unauthorized.
  destruct st as [ls u ld rf subs path]. unfold_m.
  by destruct (includes "/login" path).
Qed.

(** The interceptor of [client.ts] leaves everything else alone. *)
Lemma clientResponseError_other (config : Config) (status : option nat)
  (st : State) :
  is401 status && negb (isAuthRequest config) = false ->
  exec (clientResponseError config status) st = (st, []).
Proof.
  intros Hc. unfold clientResponseError. rewrite Hc. by destruct st.
Qed.

Lemma exec_seq (m k : M unit) (st : State) :
  exec (m;; k) st =
    let '(st1, e1) := exec m st in
    let '(st2, e2) := exec k st1 in
    (st2, e1 ++ e2).
Proof.
  unfold exec, mbind, M_bind, bind.
  destruct (m st) as [[[] st1] e1]. by destruct (k st1) as [[[] st2] e2].
Qed.

(** A request that was already retried, or an error other than 401: the
    refresh interceptor rejects. *)
Lemma authResponseError_passes (config : Config) (k : Kont)
  (status : option nat) (st : State) :
  is401 status && negb (_retry config) = false ->
  exec (authResponseError config k status) st =
    exec (settle k (Rejected (AxiosError config status))) st.
Proof. intros Hc. unfold authResponseError. by rewrite Hc. Qed.

(** No refresh token: the session is cleared and the request rejected. *)
Lemma authResponseError_no_refresh_token (config : Config) (k : Kont)
  (st : State) :
  _retry config = false ->
  ifTruthy (localStorage st !! "refresh_token") = None ->
  exec (authResponseError config k (Some 401)) st =
    let st1 := mkState (delete "refresh_token"
                          (delete "user_data" (localStorage st)))
                       None (isLoading st) (isRefreshing st)
                       (refreshSubscribers st) (pathname st) in
    let '(st2, e2) :=
      exec (settle k (Rejected (AxiosError (set_retry true config) (Some 401))))
           st1 in
    (st2, [ClearUser; RemoveItem "user_data"; RemoveItem "refresh_token"] ++ e2).
Proof.
  intros Hr Hrt. unfold authResponseError.
  rewrite Hr, is401_unauthorized. destruct st as [ls u ld rf subs path].
  cbn in Hrt. unfold_m. rewrite Hrt. cbn.
  by destruct (settle _ _ _) as [[[] st2] e2].
Qed.

(** Idle, with a refresh token: the flag is raised and the refresh call is
    issued; its reply resumes the handler of the triggering request. *)
Lemma authResponseError_starts_refresh (config : Config) (k : Kont)
  (st : State) (rt : string) :
  _retry config = false ->
  ifTruthy (localStorage st !! "refresh_token") = Some rt ->
  isRefreshing st = false ->
  exec (authResponseError config k (Some 401)) st =
    (mkState (localStorage st) (user st) (isLoading st) true
             (refreshSubscribers st) (pathname st),
     [Dispatch
        (mkConfig "/auth/refresh"
           (match ifTruthy (localStorage st !! "auth_token") with
            | Some t => Some ("Bearer " +:+ t)
            | None => None
            end) false (Some rt))
        (KRefresh (set_retry true config) k)]).
Proof.
  intros Hr Hrt Hidle. unfold authResponseError.
  rewrite Hr, is401_unauthorized. destruct st as [ls u ld rf subs path].
  cbn in Hrt, Hidle. subst rf. unfold_m. rewrite Hrt. cbn. unfold_m.
  by destruct (ifTruthy (ls !! "auth_token")).
Qed.

(** Refreshing, with a refresh token: the request joins the queue and
    nothing is sent. *)
Lemma authResponseError_enqueues (config : Config) (k : Kont)
  (st : State) (rt : string) :
  _retry config = false ->
  ifTruthy (localStorage st !! "refresh_token") = Some rt ->
  isRefreshing st = true ->
  exec (authResponseError config k (Some 401)) st =
    (mkState (localStorage st) (user st) (isLoading st) true
             (refreshSubscribers st ++ [(set_retry true config, k)])
             (pathname st),
     []).
Proof.
  intros Hr Hrt Hbusy. unfold authResponseError.
  rewrite Hr, is401_unauthorized. destruct st as [ls u ld rf subs path].
  cbn in Hrt, Hbusy. subst rf. unfold_m. by rewrite Hrt.
Qed.

(** With the new token persisted, a subscriber's callback puts its request
    on the wire with that token. *)
Lemma exec_callSubscriber (token : string) (cb : Config * Kont) (st : State) :
  ifTruthy (localStorage st !! "auth_token") = Some token ->
  exec (callSubscriber token cb) st = (st, [replay token cb]).
Proof.
  intros Htok. unfold callSubscriber. destruct st as [ls u ld rf qs path].
  cbn in Htok. unfold_m. by rewrite Htok.
Qed.

Lemma forEach_callSubscriber (token : string) (subs : list (Config * Kont))
  (st : State) :
  ifTruthy (localStorage st !! "auth_token") = Some token ->
  exec (forEach subs (callSubscriber token)) st = (st, map (replay token) subs).
Proof.
  intros Htok. induction subs as [|cb subs IH]; [by destruct st|].
  cbn [forEach]. by rewrite exec_seq, exec_callSubscriber, IH.
Qed.

Lemma committedStorage_token (u : User) (t : string) (ls : gmap string string) :
  committedStorage u t ls !! "auth_token" = Some t.
Proof.
  unfold committedStorage. rewrite lookup_insert_ne by done.
  destruct (ifTruthy (refresh_token u)).
  - rewrite lookup_insert_ne by done. apply lookup_insert_eq.
  - apply lookup_insert_eq.
Qed.

Lemma ifTruthy_idem (v : option string) (s : string) :
  ifTruthy v = Some s -> ifTruthy (Some s) = Some s.
Proof.
  destruct v as [x|]; [|done]. cbn. destruct (String.eqb x "") eqn:E; [done|].
  intros [= ->]. cbn. by rewrite E.
Qed.

Lemma exec_storeSession (u : User) (t : string) (st : State) :
  exec (storeSession u t) st =
    (mkState (committedStorage u t (localStorage st)) (Some u) (isLoading st)
             (isRefreshing st) (refreshSubscribers st) (pathname st), []).
Proof.
  unfold storeSession, committedStorage. destruct st as [ls usr ld rf qs path].
  unfold_m. by destruct (ifTruthy (refresh_token u)).
Qed.

Lemma exec_gets {A : Type} (f : State -> A) (k : A -> M unit) (st : State) :
  exec (x ← gets f; k x) st = exec (k (f st)) st.
Proof.
  unfold exec, mbind, M_bind, bind, gets.
  by destruct (k (f st) st) as [[[] st2] e2].
Qed.

Lemma exec_apiClient (token : string) (c : Config) (k : Kont) (st : State) :
  ifTruthy (localStorage st !! "auth_token") = Some token ->
  exec (apiClient c k) st = (st, [replay token (c, k)]).
Proof.
  intros Htok. destruct st as [ls u ld rf qs path].
  cbn in Htok. unfold_m. by rewrite Htok.
Qed.

Lemma exec_onTokenRefreshed (token : string) (st : State) :
  ifTruthy (localStorage st !! "auth_token") = Some token ->
  exec (onTokenRefreshed token) st =
    (mkState (localStorage st) (user st) (isLoading st) (isRefreshing st) []
             (pathname st),
     map (replay token) (refreshSubscribers st)).
Proof.
  intros Htok. unfold onTokenRefreshed.
  rewrite exec_gets, exec_seq, forEach_callSubscriber by done.
  destruct st as [ls u ld rf qs path]. cbn. by rewrite app_nil_r.
Qed.

(** The refresh call succeeds: tokens and identity are stored, the queue is
    replayed in order, then the triggering request; the queue is emptied.
    [isRefreshing] is not written. *)
Lemma settle_refresh_success (originalRequest : Config) (k : Kont)
  (d : ResponseData) (u : User) (t : string) (st : State) :
  extractUserData d = Some u ->
  ifTruthy (token u) = Some t ->
  exec (settle (KRefresh originalRequest k) (Fulfilled d)) st =
    (mkState (committedStorage u t (localStorage st)) (Some u) (isLoading st)
             (isRefreshing st) [] (pathname st),
     map (replay t) (refreshSubscribers st) ++ [replay t (originalRequest, k)]).
Proof.
  intros Hd Ht. cbn [settle]. rewrite Hd, Ht.
  rewrite exec_seq, exec_storeSession.
  set (st1 := mkState _ _ _ _ _ _).
  assert (Htok : ifTruthy (localStorage st1 !! "auth_token") = Some t).
  { subst st1. cbn. rewrite committedStorage_token. by eapply ifTruthy_idem. }
  rewrite exec_seq, exec_onTokenRefreshed by done.
  by rewrite (exec_apiClient t).
Qed.

(** The [catch] block of the refresh interceptor: the flag is lowered, the
    identity and the refresh token are erased and the triggering request is
    rejected.  The queue is not touched. *)
Lemma exec_refresh_catch (k : Kont) (e : JsError) (st : State) :
  exec (setIsRefreshing false;; authApi.clearUser;; setUser None;;
        settle k (Rejected e)) st =
    let st1 := mkState (delete "refresh_token"
                          (delete "user_data" (localStorage st)))
                       None (isLoading st) false
                       (refreshSubscribers st) (pathname st) in
    let '(st2, e2) := exec (settle k (Rejected e)) st1 in
    (st2, [ClearUser; RemoveItem "user_data"; RemoveItem "refresh_token"] ++ e2).
Proof.
  destruct st as [ls u ld rf qs path]. unfold_m.
  by destruct (settle _ _ _) as [[[] st2] e2].
Qed.

Lemma settle_refresh_rejected (originalRequest : Config) (k : Kont)
  (e : JsError) (st : State) :
  exec (settle (KRefresh originalRequest k) (Rejected e)) st =
    let st1 := mkState (delete "refresh_token"
                          (delete "user_data" (localStorage st)))
                       None (isLoading st) false
                       (refreshSubscribers st) (pathname st) in
    let '(st2, e2) := exec (settle k (Rejected e)) st1 in
    (st2, [ClearUser; RemoveItem "user_data"; RemoveItem "refresh_token"] ++ e2).
Proof. cbn [settle]. apply exec_refresh_catch. Qed.


Lemma exec_onReply_error (config : Config) (k : Kont) (status : option nat)
  (st : State) :
  exec (onReply config k (ReplyError status)) st =
    let '(st1, e1) := exec (clientResponseError config status) st in
    let '(st2, e2) := exec (authResponseError config k status) st1 in
    (st2, e1 ++ e2).
Proof. apply exec_seq. Qed.

Lemma gatewayState_refresh_token (st : State) :
  localStorage (gatewayState st) !! "refresh_token"
  = localStorage st !! "refresh_token".
Proof. cbn. by rewrite !lookup_delete_ne. Qed.

Lemma gatewayState_auth_token (st : State) :
  localStorage (gatewayState st) !! "auth_token" = None.
Proof. cbn. rewrite lookup_delete_ne by done. apply lookup_delete_eq. Qed.

(** First 401 while idle: after the gateway's erasure, one refresh call. *)
Lemma onReply_starts_refresh (cb : Config * Kont) (st : State) (rt : string) :
  freshRequest cb ->
  ifTruthy (localStorage st !! "refresh_token") = Some rt ->
  isRefreshing st = false ->
  exec (onReply (fst cb) (snd cb) unauthorized) st =
    (mkState (localStorage (gatewayState st)) (user st) (isLoading st) true
             (refreshSubscribers st) (pathname st),
     gatewayTrace (pathname st) ++
     [Dispatch (mkConfig "/auth/refresh" None false (Some rt))
               (KRefresh (set_retry true (fst cb)) (snd cb))]).
Proof.
  intros [Hr Ha] Hrt Hidle. unfold unauthorized.
  rewrite exec_onReply_error, clientResponseError_unauthorized by done.
  rewrite (authResponseError_starts_refresh _ _ _ rt); try done.
  - by rewrite gatewayState_auth_token.
  - by rewrite gatewayState_refresh_token.
Qed.

(** A 401 while refreshing: after the gateway's erasure, the request joins
    the queue and no call is made. *)
Lemma onReply_enqueues (cb : Config * Kont) (st : State) (rt : string) :
  freshRequest cb ->
  ifTruthy (localStorage st !! "refresh_token") = Some rt ->
  isRefreshing st = true ->
  exec (onReply (fst cb) (snd cb) unauthorized) st =
    (mkState (localStorage (gatewayState st)) (user st) (isLoading st) true
             (refreshSubscribers st ++ [marked cb]) (pathname st),
     gatewayTrace (pathname st)).
Proof.
  intros [Hr Ha] Hrt Hbusy. unfold unauthorized.
  rewrite exec_onReply_error, clientResponseError_unauthorized by done.
  rewrite (authResponseError_enqueues _ _ _ rt); try done.
  - by rewrite app_nil_r.
  - by rewrite gatewayState_refresh_token.
Qed.

Lemma refreshCalls_app (t1 t2 : list Effect) :
  refreshCalls (t1 ++ t2) = refreshCalls t1 ++ refreshCalls t2.
Proof. apply List.filter_app. Qed.

Lemma refreshCalls_gatewayTrace (path : string) :
  refreshCalls (gatewayTrace path) = [].
Proof. unfold gatewayTrace. by destruct (includes "/login" path). Qed.

Lemma exec_run_cons (ev : Event) (evs : list Event) (st : State) :
  exec (run (ev :: evs)) st =
    let '(st1, e1) := exec (step ev) st in
    let '(st2, e2) := exec (run evs) st1 in
    (st2, e1 ++ e2).
Proof. apply exec_seq. Qed.

(** While the refresh is in flight, any number of further 401 replies only
    lengthen the queue, in arrival order. *)
Lemma run_enqueues (others : list (Config * Kont)) (st : State) (rt : string) :
  Forall freshRequest others ->
  ifTruthy (localStorage st !! "refresh_token") = Some rt ->
  isRefreshing st = true ->
  let '(st1, t1) := exec (run (map unauthorizedReply others)) st in
  refreshCalls t1 = []
  /\ isRefreshing st1 = true
  /\ ifTruthy (localStorage st1 !! "refresh_token") = Some rt
  /\ refreshSubscribers st1 = refreshSubscribers st ++ map marked others
  /\ (user st1, isLoading st1, pathname st1)
     = (user st, isLoading st, pathname st).
Proof.
  intros Hfresh. revert st.
  induction Hfresh as [|cb others Hcb _ IH]; intros st Hrt Hbusy.
  - destruct st. cbn. by rewrite app_nil_r.
  - cbn [map]. rewrite exec_run_cons. cbn [step unauthorizedReply].
    rewrite (onReply_enqueues _ _ rt) by done.
    set (st' := mkState _ _ _ _ _ _).
    specialize (IH st'). destruct (exec (run _) st') as [st1 t1].
    destruct IH as (Hcalls & Hflag & Hrt1 & Hq & Hrest).
    + subst st'. cbn [localStorage]. by rewrite gatewayState_refresh_token.
    + done.
    + rewrite refreshCalls_app, refreshCalls_gatewayTrace, Hcalls.
      repeat split; try done.
      rewrite Hq. subst st'. cbn. by rewrite <- app_assoc.
Qed.

End Coordinator.

Section Claims.
Context {json : JSON}.

(** ** Single-flight refresh *)

(** C1 (amended).  Starting idle with a refresh token persisted, let any
    number of requests that are not authentication requests and were not
    retried each receive a 401.  Exactly one call to the refresh endpoint is
    issued, by the first of them; every other one joins the queue, in
    arrival order.  When the refresh call then succeeds with a token, every
    queued request is replayed with the new token in enqueue order, and the
    triggering request is replayed with the new token after all of them;
    the queue is left empty. *)
Theorem single_flight_refresh (st : State) (trigger : Config * Kont)
  (others : list (Config * Kont)) (rt newToken : string)
  (d : ResponseData) (u : User)
  (Hidle : isRefreshing st = false)
  (Hrt : ifTruthy (localStorage st !! "refresh_token") = Some rt)
  (Hfresh : Forall freshRequest (trigger :: others))
  (Hd : extractUserData d = Some u)
  (Htoken : ifTruthy (token u) = Some newToken) :
  let refreshRequest := mkConfig "/auth/refresh" None false (Some rt) in
  let resume := KRefresh (set_retry true (fst trigger)) (snd trigger) in
  let '(st1, t1) :=
    exec (run (map unauthorizedReply (trigger :: others))) st in
  let '(st2, t2) := exec (onReply refreshRequest resume (ReplyOk d)) st1 in
  refreshCalls t1 = [Dispatch refreshRequest resume]
  /\ isRefreshing st1 = true
  /\ refreshSubscribers st1 = refreshSubscribers st ++ map marked others
  /\ t2 = map (replay newToken) (refreshSubscribers st ++ map marked others)
          ++ [replay newToken (marked trigger)]
  /\ refreshSubscribers st2 = [].
Proof.
  intros refreshRequest resume.
  apply Forall_cons in Hfresh as [Htrigger Hothers].
  cbn [map]. rewrite exec_run_cons. cbn [step unauthorizedReply].
  rewrite (onReply_starts_refresh _ _ rt) by done.
  set (st' := mkState _ _ _ _ _ _).
  pose proof (run_enqueues others st' rt Hothers) as Hq.
  destruct (exec (run _) st') as [st1 t1].
  destruct Hq as (Hcalls & Hflag & _ & Hqueue & _).
  { subst st'. cbn [localStorage]. by rewrite gatewayState_refresh_token. }
  { done. }
  subst refreshRequest resume. cbn [onReply].
  rewrite (settle_refresh_success _ _ d u newToken) by done.
  rewrite !refreshCalls_app, refreshCalls_gatewayTrace, Hcalls, Hqueue.
  by subst st'.
Qed.

(** ** The flag after a successful refresh *)

Lemma refresh_success_keeps_flag (originalRequest : Config) (k : Kont)
  (d : ResponseData) (u : User) (t : string) (st : State) :
  extractUserData d = Some u ->
  ifTruthy (token u) = Some t ->
  isRefreshing (fst (exec (settle (KRefresh originalRequest k) (Fulfilled d)) st))
  = isRefreshing st.
Proof. intros Hd Ht. by rewrite (settle_refresh_success _ _ d u t). Qed.

(** A refresh token is still persisted after a successful refresh: the new
    one if the reply carried one, else the old one. *)
Lemma committedStorage_refresh_token (u : User) (t rt : string)
  (ls : gmap string string) :
  ifTruthy (ls !! "refresh_token") = Some rt ->
  exists rt', ifTruthy (committedStorage u t ls !! "refresh_token") = Some rt'.
Proof.
  intros Hrt. unfold committedStorage. rewrite lookup_insert_ne by done.
  destruct (ifTruthy (refresh_token u)) as [r|] eqn:Hr.
  - exists r. rewrite lookup_insert_eq. by eapply ifTruthy_idem.
  - exists rt. by rewrite lookup_insert_ne.
Qed.

(** C2.  The claim: after a successful refresh the coordinator is idle
    again, so a later 401 starts a new refresh.  The code: the flag is
    raised before the refresh call and lowered only in the [catch] block.
    After a successful refresh the flag is still raised; when a later
    request that was not retried receives a 401, no refresh call is made:
    the request joins the queue of a refresh that is no longer in flight,
    and its promise does not settle. *)
Theorem refresh_success_stays_refreshing (st : State)
  (refreshRequest originalRequest : Config) (k : Kont) (d : ResponseData)
  (u : User) (newToken rt : string) (later : Config * Kont)
  (Hflag : isRefreshing st = true)
  (Hrt : ifTruthy (localStorage st !! "refresh_token") = Some rt)
  (Hd : extractUserData d = Some u)
  (Htoken : ifTruthy (token u) = Some newToken)
  (Hlater : freshRequest later) :
  let '(st1, t1) :=
    exec (onReply refreshRequest (KRefresh originalRequest k) (ReplyOk d)) st in
  let '(st2, t2) := exec (onReply (fst later) (snd later) unauthorized) st1 in
  isRefreshing st1 = true
  /\ refreshSubscribers st1 = []
  /\ refreshCalls t2 = []
  /\ settledPromises t2 = []
  /\ refreshSubscribers st2 = [marked later]
  /\ isRefreshing st2 = true.
Proof.
  cbn [onReply]. rewrite (settle_refresh_success _ _ d u newToken) by done.
  destruct (committedStorage_refresh_token u newToken rt (localStorage st) Hrt)
    as [rt' Hrt'].
  rewrite (onReply_enqueues later _ rt') by done.
  cbn [refreshSubscribers isRefreshing pathname app]. unfold gatewayTrace.
  by destruct (includes "/login" (pathname st)).
Qed.

(** ** Refresh failure *)

(** Rejecting a continuation never puts a request on the wire. *)
Lemma settle_rejected_no_dispatch (k : Kont) (e : JsError) (st : State) :
  let '(st1, t1) := exec (settle k (Rejected e)) st in
  refreshCalls t1 = []
  /\ navigations t1 = []
  /\ (ifTruthy (localStorage st !! "refresh_token") = None ->
      ifTruthy (localStorage st1 !! "refresh_token") = None).
Proof.
  revert st. induction k as [p|orig k IH|p|p]; intros st.
  - by destruct st.
  - rewrite settle_refresh_rejected. cbn zeta.
    set (st' := mkState _ _ _ _ _ _). specialize (IH st').
    destruct (exec (settle k _) st') as [st1 t1].
    destruct IH as (Hc & Hn & Hrt). repeat split; [done..|].
    intros _. apply Hrt. subst st'. cbn [localStorage]. by rewrite lookup_delete_eq.
  - destruct st as [ls u ld rf qs path]. cbn [settle]. unfold_m.
    repeat split; [done..|]. intros _. by rewrite lookup_delete_eq.
  - by destruct st.
Qed.

(** Without a refresh token, no error reply starts a refresh, and the
    refresh token stays absent. *)
Lemma onReply_error_without_refresh_token (config : Config) (k : Kont)
  (status : option nat) (st : State) :
  ifTruthy (localStorage st !! "refresh_token") = None ->
  let '(st1, t1) := exec (onReply config k (ReplyError status)) st in
  refreshCalls t1 = []
  /\ ifTruthy (localStorage st1 !! "refresh_token") = None.
Proof.
  intros Hrt. rewrite exec_onReply_error.
  assert (Hclient : exists st' t',
    exec (clientResponseError config status) st = (st', t')
    /\ refreshCalls t' = []
    /\ ifTruthy (localStorage st' !! "refresh_token") = None).
  { destruct (is401 status && negb (isAuthRequest config)) eqn:Hc.
    - apply andb_true_iff in Hc as [H401 Hauth].
      apply bool_decide_eq_true_1 in H401 as ->.
      apply negb_true_iff in Hauth.
      rewrite clientResponseError_unauthorized by done.
      eexists _, _. split; [done|]. split.
      + apply refreshCalls_gatewayTrace.
      + by rewrite gatewayState_refresh_token.
    - rewrite clientResponseError_other by done. by eexists _, _. }
  destruct Hclient as (st' & t' & -> & Hcalls & Hrt').
  destruct (is401 status && negb (_retry config)) eqn:Hc.
  - apply andb_true_iff in Hc as [H401 Hretry].
    apply bool_decide_eq_true_1 in H401 as ->.
    apply negb_true_iff in Hretry.
    rewrite authResponseError_no_refresh_token by done. cbn zeta.
    set (st1 := mkState _ _ _ _ _ _).
    pose proof (settle_rejected_no_dispatch k
      (AxiosError (set_retry true config) (Some 401)) st1) as Hs.
    destruct (exec (settle k _) st1) as [st2 t2].
    destruct Hs as (Hc2 & _ & Hrt2).
    rewrite !refreshCalls_app, Hcalls, Hc2. split; [done|].
    apply Hrt2. subst st1. cbn [localStorage]. by rewrite lookup_delete_eq.
  - rewrite authResponseError_passes by done.
    pose proof (settle_rejected_no_dispatch k (AxiosError config status) st')
      as Hs.
    destruct (exec (settle k _) st') as [st2 t2].
    destruct Hs as (Hc2 & _ & Hrt2).
    rewrite refreshCalls_app, Hcalls, Hc2. split; [done|]. by apply Hrt2.
Qed.

Lemma run_errors_without_refresh_token
  (later : list (Config * Kont * option nat)) (st : State) :
  ifTruthy (localStorage st !! "refresh_token") = None ->
  refreshCalls (snd (exec (run (map errorReply later)) st)) = [].
Proof.
  revert st. induction later as [|[[c k] status] later IH]; intros st Hrt.
  - by destruct st.
  - cbn [map]. rewrite exec_run_cons. cbn [step errorReply fst snd].
    pose proof (onReply_error_without_refresh_token c k status st Hrt) as Hs.
    destruct (exec (onReply c k _) st) as [st1 t1]. destruct Hs as [Hc Hrt1].
    specialize (IH st1 Hrt1). destruct (exec (run _) st1) as [st2 t2].
    cbn [snd] in *. by rewrite refreshCalls_app, Hc, IH.
Qed.

(** What the two failure paths do when the request is that of a component.
    When the refresh call rejects (an error reply other than 401), the
    [catch] block of the refresh interceptor calls [authApi.clearUser] once,
    lowers the flag, publishes the absent session and rejects the
    triggering request with the refresh error.  When a request that was not
    retried receives a 401 and no refresh token is persisted,
    [authApi.clearUser] is called once, no refresh call is made and the
    request is rejected.  In both cases no later error reply starts a
    refresh as long as no refresh token has been stored again. *)
Lemma refresh_failure_path (st : State) (refreshRequest originalRequest : Config)
  (p : nat) (status : option nat) (Hstatus : status <> Some 401) :
  (let '(st1, t1) :=
     exec (onReply refreshRequest (KRefresh originalRequest (KCaller p))
                   (ReplyError status)) st in
   t1 = [ClearUser; RemoveItem "user_data"; RemoveItem "refresh_token";
         Settle p (Rejected (AxiosError refreshRequest status))]
   /\ clearUserCalls t1 = 1
   /\ isRefreshing st1 = false
   /\ user st1 = None
   /\ refreshSubscribers st1 = refreshSubscribers st
   /\ forall later,
        refreshCalls (snd (exec (run (map errorReply later)) st1)) = [])
  /\ (forall config,
        _retry config = false ->
        ifTruthy (localStorage st !! "refresh_token") = None ->
        let '(st1, t1) := exec (onReply config (KCaller p) unauthorized) st in
        clearUserCalls t1 = 1
        /\ refreshCalls t1 = []
        /\ settledPromises t1 =
             [(p, Rejected (AxiosError (set_retry true config) (Some 401)))]
        /\ user st1 = None
        /\ refreshSubscribers st1 = refreshSubscribers st
        /\ forall later,
             refreshCalls (snd (exec (run (map errorReply later)) st1)) = []).
Proof.
  assert (H401 : is401 status = false) by by apply bool_decide_eq_false_2.
  split.
  - rewrite exec_onReply_error.
    rewrite clientResponseError_other by by rewrite H401.
    rewrite authResponseError_passes by by rewrite H401.
    rewrite settle_refresh_rejected. destruct st as [ls u ld rf qs path].
    cbn. repeat split. intros later.
    apply run_errors_without_refresh_token. cbn. by rewrite lookup_delete_eq.
  - intros config Hretry Hrt. unfold unauthorized.
    pose proof (onReply_error_without_refresh_token config (KCaller p)
                  (Some 401) st Hrt) as Hs.
    rewrite exec_onReply_error in *.
    destruct (isAuthRequest config) eqn:Hauth.
    + rewrite clientResponseError_other in * by by rewrite Hauth.
      rewrite authResponseError_no_refresh_token in * by done.
      destruct st as [ls u ld rf qs path]. cbn in *.
      destruct Hs as [Hc Hrt1]. repeat split. intros later.
      by apply run_errors_without_refresh_token.
    + rewrite clientResponseError_unauthorized in * by done.
      rewrite authResponseError_no_refresh_token in *
        by (try done; by rewrite gatewayState_refresh_token).
      destruct st as [ls u ld rf qs path]. cbn in *.
      destruct Hs as [Hc Hrt1].
      unfold gatewayTrace. destruct (includes "/login" path); cbn;
        (repeat split; intros later;
         by apply run_errors_without_refresh_token).
Qed.

(** Rejecting a continuation settles the promise at the end of its chain
    and no other, and does not touch the queue. *)
Lemma settle_rejected_settles_one (k : Kont) (e : JsError) (st : State) :
  let '(st1, t1) := exec (settle k (Rejected e)) st in
  (settledPromises t1).*1 = [promiseOf k]
  /\ refreshSubscribers st1 = refreshSubscribers st
  /\ (isRefreshing st = false -> isRefreshing st1 = false)
  /\ (user st = None -> user st1 = None)
  /\ (forall p, k = KCaller p \/ k = KLogin p -> clearUserCalls t1 = 0).
Proof.
  revert e st. induction k as [p|orig k IH|p|p]; intros e st.
  - by destruct st.
  - rewrite settle_refresh_rejected. cbn zeta.
    set (st' := mkState _ _ _ _ _ _). specialize (IH e st').
    destruct (exec (settle k _) st') as [st1 t1].
    destruct IH as (Hs & Hq & Hflag & Hu & _). repeat split; [done..| | |].
    + intros _. by apply Hflag.
    + intros _. by apply Hu.
    + by intros p [|].
  - destruct st as [ls u ld rf qs path]. cbn [settle]. unfold_m.
    repeat split; try done. by intros p' [|].
  - by destruct st.
Qed.

Lemma settledPromises_app (t1 t2 : list Effect) :
  settledPromises (t1 ++ t2) = settledPromises t1 ++ settledPromises t2.
Proof.
  induction t1 as [|[] t1 IH]; cbn; try done. by rewrite IH.
Qed.

Lemma settledPromises_gatewayTrace (path : string) :
  settledPromises (gatewayTrace path) = [].
Proof. unfold gatewayTrace. by destruct (includes "/login" path). Qed.

Lemma rejectedPromises_settled (t : list Effect) (p : nat) :
  p ∈ rejectedPromises t -> p ∈ (settledPromises t).*1.
Proof.
  unfold rejectedPromises. rewrite !list_elem_of_fmap.
  intros (x & -> & Hx). exists x. split; [done|].
  apply list_elem_of_In. apply list_elem_of_In, List.filter_In in Hx.
  by destruct Hx.
Qed.

(** C3.  The claim: when the refresh call fails, or no refresh token is
    present, every queued continuation is rejected.  The code rejects none,
    whatever request triggered the refresh:
    - when the refresh call rejects (an error reply other than 401), the
      [catch] block of the refresh interceptor lowers the flag, calls
      [authApi.clearUser], publishes the absent session and rejects the
      triggering request; it does not look at the queue.  The only promise
      that settles is the one of the triggering request; no promise that
      waits in the queue is rejected, or settled at all, and every entry is
      still in the queue once the coordinator is idle again, with no
      refresh in flight that could resume it.  The rest of the claim holds
      on this path: the [catch] block calls [authApi.clearUser] once (a
      [logout] that triggered the refresh calls it again in its own
      [finally] block), and no later error reply starts a refresh as long
      as no refresh token has been stored again;
    - when the refresh call is answered 401, the refresh interceptor takes
      the refresh request for one more request that waits for a new token
      and puts it in the queue: the [catch] block is never reached, no
      promise settles, [authApi.clearUser] is not called and the flag stays
      raised;
    - when a request receives a 401 and no refresh token is persisted, that
      request is rejected and the queue is left as it is.
    (The success path settles and empties the queue, in
    [onTokenRefreshed].) *)
Theorem refresh_failure_strands_queue (st : State)
  (refreshRequest originalRequest : Config) (k : Kont) (status : option nat) :
  (status <> Some 401 ->
   let '(st1, t1) :=
     exec (onReply refreshRequest (KRefresh originalRequest k)
                   (ReplyError status)) st in
   isRefreshing st1 = false
   /\ user st1 = None
   /\ 1 <= clearUserCalls t1
   /\ refreshCalls t1 = []
   /\ (settledPromises t1).*1 = [promiseOf k]
   /\ refreshSubscribers st1 = refreshSubscribers st
   /\ (forall p, p ∈ queuedPromises st -> p <> promiseOf k ->
         (p ∉ (settledPromises t1).*1) /\ (p ∉ rejectedPromises t1)
         /\ (p ∈ queuedPromises st1))
   /\ (forall p, k = KCaller p \/ k = KLogin p -> clearUserCalls t1 = 1)
   /\ forall later,
        refreshCalls (snd (exec (run (map errorReply later)) st1)) = [])
  /\ (forall rt,
        freshRequest (refreshRequest, KRefresh originalRequest k) ->
        ifTruthy (localStorage st !! "refresh_token") = Some rt ->
        isRefreshing st = true ->
        let '(st1, t1) :=
          exec (onReply refreshRequest (KRefresh originalRequest k)
                        unauthorized) st in
        isRefreshing st1 = true
        /\ clearUserCalls t1 = 0
        /\ refreshCalls t1 = []
        /\ settledPromises t1 = []
        /\ refreshSubscribers st1 =
             refreshSubscribers st
             ++ [(set_retry true refreshRequest, KRefresh originalRequest k)])
  /\ (_retry originalRequest = false ->
      ifTruthy (localStorage st !! "refresh_token") = None ->
      let '(st1, t1) := exec (onReply originalRequest k unauthorized) st in
      refreshCalls t1 = []
      /\ (settledPromises t1).*1 = [promiseOf k]
      /\ refreshSubscribers st1 = refreshSubscribers st
      /\ forall p, p ∈ queuedPromises st -> p <> promiseOf k ->
            (p ∉ rejectedPromises t1) /\ (p ∈ queuedPromises st1)).
Proof.
  split; [|split].
  - intros Hstatus.
    assert (H401 : is401 status = false) by by apply bool_decide_eq_false_2.
    rewrite exec_onReply_error.
    rewrite clientResponseError_other by by rewrite H401.
    rewrite authResponseError_passes by by rewrite H401.
    rewrite settle_refresh_rejected. cbn zeta.
    set (e := AxiosError refreshRequest status).
    set (st' := mkState _ _ _ _ _ _).
    pose proof (settle_rejected_settles_one k e st') as Hone.
    pose proof (settle_rejected_no_dispatch k e st') as Hnone.
    destruct (exec (settle k (Rejected e)) st') as [st1 t1].
    destruct Hone as (Hs & Hq & Hflag & Hu & Honce).
    destruct Hnone as (Hcalls & _ & Hgone).
    assert (Hsettled :
      settledPromises ([ClearUser; RemoveItem "user_data";
                        RemoveItem "refresh_token"] ++ t1)
      = settledPromises t1) by done.
    cbv beta iota zeta. rewrite !app_nil_l.
    repeat split.
    + by apply Hflag.
    + by apply Hu.
    + unfold clearUserCalls. cbn. lia.
    + done.
    + by rewrite Hsettled.
    + done.
    + rewrite Hsettled, Hs. intros Hin. by apply list_elem_of_singleton in Hin.
    + intros Hin%rejectedPromises_settled. rewrite Hsettled, Hs in Hin.
      by apply list_elem_of_singleton in Hin.
    + unfold queuedPromises in *. by rewrite Hq.
    + intros p Hk. specialize (Honce p Hk). unfold clearUserCalls in *.
      cbn. by rewrite Honce.
    + intros later. apply run_errors_without_refresh_token. apply Hgone.
      subst st'. cbn [localStorage]. by rewrite lookup_delete_eq.
  - intros rt Hfresh Hrt Hflag.
    pose proof (onReply_enqueues (refreshRequest, KRefresh originalRequest k)
                  st rt Hfresh Hrt Hflag) as He.
    cbn [fst snd] in He. rewrite He.
    unfold clearUserCalls, gatewayTrace.
    by destruct (includes "/login" (pathname st)).
  - intros Hretry Hrt. unfold unauthorized. rewrite exec_onReply_error.
    assert (Hclient : exists st' t',
      exec (clientResponseError originalRequest (Some 401)) st = (st', t')
      /\ refreshCalls t' = [] /\ settledPromises t' = []
      /\ refreshSubscribers st' = refreshSubscribers st
      /\ ifTruthy (localStorage st' !! "refresh_token") = None).
    { destruct (isAuthRequest originalRequest) eqn:Hauth.
      - rewrite clientResponseError_other by by rewrite Hauth.
        by eexists _, _.
      - rewrite clientResponseError_unauthorized by done.
        eexists _, _. split; [done|].
        rewrite refreshCalls_gatewayTrace, settledPromises_gatewayTrace.
        by rewrite gatewayState_refresh_token. }
    destruct Hclient as (st' & t' & -> & Hcalls' & Hsettled' & Hq' & Hrt').
    rewrite authResponseError_no_refresh_token by done. cbn zeta.
    set (e := AxiosError (set_retry true originalRequest) (Some 401)).
    set (st'' := mkState _ _ _ _ _ _).
    pose proof (settle_rejected_settles_one k e st'') as Hone.
    pose proof (settle_rejected_no_dispatch k e st'') as Hnone.
    destruct (exec (settle k (Rejected e)) st'') as [st1 t1].
    destruct Hone as (Hs & Hq & _). destruct Hnone as (Hcalls & _ & _).
    assert (Hsettled :
      settledPromises (t' ++ [ClearUser; RemoveItem "user_data";
                              RemoveItem "refresh_token"] ++ t1)
      = settledPromises t1)
      by by rewrite settledPromises_app, Hsettled'.
    repeat split.
    + by rewrite !refreshCalls_app, Hcalls', Hcalls.
    + by rewrite Hsettled.
    + rewrite Hq. subst st''. cbn [refreshSubscribers]. by rewrite Hq'.
    + intros Hin%rejectedPromises_settled. rewrite Hsettled, Hs in Hin.
      by apply list_elem_of_singleton in Hin.
    + unfold queuedPromises in *. rewrite Hq. subst st''.
      cbn [refreshSubscribers]. by rewrite Hq'.
Qed.

(** ** The gateway and the coordinator *)






(** ** Replay loop prevention *)

(** C7.  A request that carries the retry mark and receives a 401 again is
    rejected to its caller with that error; no call to the refresh endpoint
    is made for it, it does not join the queue, and the flag is not
    touched. *)
Theorem retried_request_is_rejected (st : State) (config : Config) (p : nat)
  (Hretried : _retry config = true) :
  let '(st1, t1) := exec (onReply config (KCaller p) unauthorized) st in
  settledPromises t1 = [(p, Rejected (AxiosError config (Some 401)))]
  /\ rejectedPromises t1 = [p]
  /\ refreshCalls t1 = []
  /\ isRefreshing st1 = isRefreshing st
  /\ refreshSubscribers st1 = refreshSubscribers st.
Proof.
  unfold unauthorized. rewrite exec_onReply_error.
  assert (Hpass : is401 (Some 401) && negb (_retry config) = false)
    by by rewrite Hretried, andb_false_r.
  destruct (isAuthRequest config) eqn:Hauth.
  - rewrite clientResponseError_other by by rewrite Hauth, andb_false_r.
    rewrite authResponseError_passes by done. by destruct st.
  - rewrite clientResponseError_unauthorized by done.
    rewrite authResponseError_passes by done.
    destruct st as [ls u ld rf qs path]. unfold gatewayTrace. cbn.
    by destruct (includes "/login" path).
Qed.

(** Every request replayed by the refresh interceptor carries the mark. *)
Lemma replay_is_marked (token : string) (cb : Config * Kont) :
  exists c, replay token (marked cb) = Dispatch c (snd cb) /\ _retry c = true.
Proof. by eexists. Qed.

(** ** Session state *)

Lemma getStoredUser_returns (ls : gmap string string) :
  exists v, authApi.getStoredUser ls = Returns v.
Proof.
  unfold authApi.getStoredUser.
  destruct (ifTruthy (ls !! "user_data")) as [text|]; [|by eexists].
  destruct (_ || _); [by eexists|].
  destruct (JSON_parse text); by eexists.
Qed.

Lemma initializeAuth_returns (st : State) :
  exists v, authApi.getStoredUser (localStorage st) = Returns v
    /\ initializeAuth st =
       Returns (mkState (localStorage st)
                  (match v with
                   | Some u =>
                       if authApi.isAuthenticated (localStorage st)
                       then Some u else user st
                   | None => user st
                   end)
                  false (isRefreshing st) (refreshSubscribers st)
                  (pathname st)).
Proof.
  destruct (getStoredUser_returns (localStorage st)) as [v Hv].
  exists v. split; [done|]. unfold initializeAuth. rewrite Hv.
  destruct st as [ls u ld rf qs path]. cbn.
  destruct v as [w|]; [|done]. by destruct (authApi.isAuthenticated ls).
Qed.

(** C8.  The context's [isAuthenticated] is true exactly when an identity is
    published in [user].  [initializeAuth] always completes, and after it
    the session is authenticated exactly when an identity was already
    published or both a persisted identity and a persisted access token
    were found; in particular, starting without a published identity and
    without a persisted identity, the session is unauthenticated whatever
    the persisted access token is. *)
Theorem isAuthenticated_iff_identity (st : State) :
  (isAuthenticated st = true <-> exists u, user st = Some u)
  /\ exists st',
       initializeAuth st = Returns st'
       /\ (isAuthenticated st' = true <->
             (exists u, user st = Some u)
             \/ (authApi.isAuthenticated (localStorage st) = true
                 /\ exists u, authApi.getStoredUser (localStorage st)
                              = Returns (Some u)))
       /\ (user st = None -> localStorage st !! "user_data" = None ->
           isAuthenticated st' = false).
Proof.
  assert (Hiff : forall s, isAuthenticated s = true <-> exists u, user s = Some u).
  { intros s. unfold isAuthenticated. destruct (user s) as [u|].
    - split; [by eexists|done].
    - split; [done|by intros [u Hu]]. }
  split; [apply Hiff|].
  destruct (initializeAuth_returns st) as (v & Hv & Hinit).
  eexists. split; [exact Hinit|]. split.
  - rewrite Hiff. cbn [user]. rewrite Hv.
    destruct v as [w|]; [destruct (authApi.isAuthenticated _) eqn:Ha|].
    + split; [intros _; right; by eauto|by eauto].
    + split; [by left|]. by intros [Hu | [Hf _]].
    + split; [by left|]. by intros [Hu | [_ [u Hu]]].
  - intros Hu Hud. unfold authApi.getStoredUser in Hv. rewrite Hud in Hv.
    cbn in Hv. injection Hv as <-. unfold isAuthenticated. cbn. by rewrite Hu.
Qed.

(** C10.  When the persisted identity is missing or unreadable,
    [getStoredUser] returns [null] instead of throwing, and
    [initializeAuth] completes: it only ends the loading phase. *)
Theorem getStoredUser_corrupted (st : State)
  (Hbad : corruptedIdentity (localStorage st)) :
  authApi.getStoredUser (localStorage st) = Returns None
  /\ initializeAuth st =
       Returns (mkState (localStorage st) (user st) false (isRefreshing st)
                        (refreshSubscribers st) (pathname st)).
Proof.
  assert (Hget : authApi.getStoredUser (localStorage st) = Returns None).
  { unfold authApi.getStoredUser.
    destruct Hbad as [-> | [-> | [-> | (text & e & -> & Hparse)]]]; try done.
    destruct (ifTruthy (Some text)) as [text'|] eqn:Ht; [|done].
    assert (text' = text) as ->.
    { cbn in Ht. by destruct (String.eqb text ""); simplify_eq. }
    destruct (_ || _); [done|]. by rewrite Hparse. }
  split; [done|]. unfold initializeAuth. rewrite Hget. by destruct st.
Qed.

(** ** Logout *)

Lemma clearedStorage_lookup (ls : gmap string string) (key : string) :
  key ∈ sessionSlots -> clearedStorage ls !! key = None.
Proof.
  unfold sessionSlots, clearedStorage. rewrite !elem_of_cons, elem_of_nil.
  intros [-> | [-> | [-> | []]]].
  - rewrite !lookup_delete_ne by done. apply lookup_delete_eq.
  - apply lookup_delete_eq.
  - rewrite lookup_delete_ne by done. apply lookup_delete_eq.
Qed.

Lemma delete_clearedStorage (ls : gmap string string) (key : string) :
  key ∈ sessionSlots -> delete key (clearedStorage ls) = clearedStorage ls.
Proof. intros Hkey. apply delete_id. by apply clearedStorage_lookup. Qed.

Lemma slotsEmpty_clearedStorage (ls : gmap string string) :
  slotsEmpty (clearedStorage ls).
Proof.
  apply Forall_forall. intros key Hkey. by apply clearedStorage_lookup.
Qed.

(** The [finally] block of [logout]. *)
Lemma exec_logout_finally (p : nat) (r : Settled) (st : State) :
  exec (settle (KLogout p) r) st =
    (mkState (clearedStorage (localStorage st)) None false (isRefreshing st)
             (refreshSubscribers st) (pathname st),
     [RemoveItem "auth_token"; ClearUser; RemoveItem "user_data";
      RemoveItem "refresh_token"; Settle p (Fulfilled NoData)]).
Proof. destruct st. cbn [settle]. by unfold_m. Qed.

(** A call of [logout] in a state whose session slots are empty. *)
Lemma exec_logout_cleared (p : nat) (st : State) :
  slotsEmpty (localStorage st) ->
  exec (logout p) st =
    (mkState (localStorage st) (user st) true (isRefreshing st)
             (refreshSubscribers st) (pathname st),
     [Dispatch (mkConfig "/auth/logout" None false None) (KLogout p)]).
Proof.
  intros Hempty. apply Forall_forall with (x := "auth_token") in Hempty as Hat;
    [|set_solver].
  apply Forall_forall with (x := "refresh_token") in Hempty as Hrt;
    [|set_solver].
  destruct st as [ls u ld rf qs path]. cbn in Hat, Hrt.
  unfold logout. unfold_m. by rewrite Hrt, Hat.
Qed.

(** Once a call of [logout] has reached its [finally] block, the three
    persisted slots are empty and no identity is published.  A second call
    then sends its request and, whatever the reply, completes by resolving
    its promise, never by rejecting it, and leaves the state exactly as the
    [finally] block of the first call left it.  Likewise [authApi.clearUser]
    applied twice leaves the state that one application leaves. *)
Lemma logout_idempotent (st : State) (p1 p2 : nat) (r1 : Settled)
  (reply2 : Reply) :
  let request2 := mkConfig "/auth/logout" None false None in
  let '(st1, t1) := exec (settle (KLogout p1) r1) st in
  let '(stm, tm) := exec (logout p2) st1 in
  let '(st2, t2) := exec (onReply request2 (KLogout p2) reply2) stm in
  slotsEmpty (localStorage st1)
  /\ user st1 = None
  /\ isAuthenticated st1 = false
  /\ tm = [Dispatch request2 (KLogout p2)]
  /\ st2 = st1
  /\ settledPromises t2 = [(p2, Fulfilled NoData)]
  /\ rejectedPromises t2 = []
  /\ fst (exec authApi.clearUser (fst (exec authApi.clearUser st)))
     = fst (exec authApi.clearUser st).
Proof.
  intros request2. rewrite exec_logout_finally.
  rewrite exec_logout_cleared by apply slotsEmpty_clearedStorage.
  cbn [localStorage user isLoading isRefreshing refreshSubscribers pathname].
  set (ls1 := clearedStorage (localStorage st)).
  assert (Hdel : forall key, key ∈ sessionSlots -> delete key ls1 = ls1)
    by (intros; by apply delete_clearedStorage).
  assert (Hat : delete "auth_token" ls1 = ls1) by (apply Hdel; set_solver).
  assert (Hud : delete "user_data" ls1 = ls1) by (apply Hdel; set_solver).
  assert (Hrt : delete "refresh_token" ls1 = ls1) by (apply Hdel; set_solver).
  assert (Hclear : fst (exec authApi.clearUser (fst (exec authApi.clearUser st)))
                   = fst (exec authApi.clearUser st)).
  { destruct st as [ls u ld rf qs path]. unfold_m.
    rewrite (delete_id (delete "refresh_token" _) "user_data")
      by (rewrite lookup_delete_ne by done; apply lookup_delete_eq).
    by rewrite (delete_id _ "refresh_token") by apply lookup_delete_eq. }
  assert (Hfinally : forall r s,
    localStorage s = ls1 -> user s = None ->
    isRefreshing s = isRefreshing st ->
    refreshSubscribers s = refreshSubscribers st -> pathname s = pathname st ->
    exec (settle (KLogout p2) r) s =
      (mkState ls1 None false (isRefreshing st) (refreshSubscribers st)
               (pathname st),
       [RemoveItem "auth_token"; ClearUser; RemoveItem "user_data";
        RemoveItem "refresh_token"; Settle p2 (Fulfilled NoData)])).
  { intros r s Hls Hu Hrf Hqs Hpath. rewrite exec_logout_finally.
    rewrite Hls, Hrf, Hqs, Hpath. unfold clearedStorage.
    by rewrite Hat, Hud, Hrt. }
  assert (Hempty : ifTruthy (ls1 !! "refresh_token") = None).
  { subst ls1. rewrite clearedStorage_lookup; [done|set_solver]. }
  destruct reply2 as [d|status].
  - cbn [onReply]. rewrite Hfinally by done.
    repeat split; [apply slotsEmpty_clearedStorage|done].
  - rewrite exec_onReply_error.
    destruct (is401 status) eqn:H401.
    + apply bool_decide_eq_true_1 in H401 as ->.
      rewrite clientResponseError_unauthorized by done.
      rewrite authResponseError_no_refresh_token;
        [|done|by rewrite gatewayState_refresh_token].
      cbn zeta. rewrite Hfinally; cbn; rewrite ?Hat, ?Hud, ?Hrt; try done.
      unfold gatewayTrace.
      destruct (includes "/login" (pathname st));
        (repeat split; [apply slotsEmpty_clearedStorage|done]).
    + rewrite clientResponseError_other by by rewrite H401.
      rewrite authResponseError_passes by by rewrite H401.
      rewrite Hfinally by done.
      repeat split; [apply slotsEmpty_clearedStorage|done].
Qed.

Lemma exec_run_nil (st : State) : exec (run []) st = (st, []).
Proof. by destruct st. Qed.

(** What [logout] does up to its [await]. *)
Lemma exec_logout (p : nat) (st : State) :
  exec (logout p) st =
    (mkState (localStorage st) (user st) true (isRefreshing st)
             (refreshSubscribers st) (pathname st),
     [Dispatch (logoutRequest st) (KLogout p)]).
Proof.
  destruct st as [ls u ld rf qs path]. unfold logout, logoutRequest.
  unfold_m. by destruct (ifTruthy (ls !! "auth_token")).
Qed.

(** One call of [logout] whose request is answered 401 while a refresh
    token is persisted: the call never reaches its [finally] block. *)
Lemma run_logoutUnauthorized (st : State) (p : nat) (rt : string) :
  ifTruthy (localStorage st !! "refresh_token") = Some rt ->
  let '(st1, t1) := exec (run (logoutUnauthorized st p rt)) st in
  head t1 = Some (Dispatch (logoutRequest st) (KLogout p))
  /\ refreshCalls t1 =
       (if isRefreshing st then []
        else [Dispatch (mkConfig "/auth/refresh" None false (Some rt))
                       (KRefresh (set_retry true (logoutRequest st))
                                 (KLogout p))])
  /\ settledPromises t1 = []
  /\ clearUserCalls t1 = 0
  /\ user st1 = user st
  /\ isLoading st1 = true
  /\ isRefreshing st1 = true
  /\ pathname st1 = pathname st
  /\ localStorage st1 !! "refresh_token" = localStorage st !! "refresh_token"
  /\ queuedPromises st1 = queuedPromises st ++ [p].
Proof.
  intros Hrt. unfold logoutUnauthorized.
  assert (Hfresh : freshRequest (logoutRequest st, KLogout p)) by done.
  assert (Hgateway : forall path,
    settledPromises (gatewayTrace path) = []
    /\ clearUserCalls (gatewayTrace path) = 0).
  { intros path. unfold gatewayTrace. by destruct (includes "/login" path). }
  destruct (Hgateway (pathname st)) as [Hs Hc].
  assert (Happ : forall t1 t2 : list Effect,
    settledPromises t1 = [] -> settledPromises t2 = [] ->
    settledPromises (t1 ++ t2) = []).
  { intros t1 t2 H1 H2. induction t1 as [|[] t1 IH]; cbn in *; try done;
      by apply IH. }
  destruct (isRefreshing st) eqn:Hflag; cbn [app];
    rewrite !exec_run_cons; cbn [step]; rewrite exec_logout;
    cbv beta iota zeta; set (st0 := mkState _ _ true _ _ _).
  - pose proof (onReply_enqueues (logoutRequest st, KLogout p) st0 rt
                  Hfresh Hrt Hflag) as He.
    cbn [fst snd] in He. rewrite exec_run_cons. cbn [step].
    rewrite He, exec_run_nil.
    unfold queuedPromises, clearUserCalls in *.
    cbn [fst snd pathname user isLoading isRefreshing refreshSubscribers
         localStorage st0 gatewayState app head marked promiseOf].
    cbn [settledPromises List.filter isClearUser].
    rewrite app_nil_r, map_app. cbn [map snd promiseOf].
    repeat split; [|done..|by rewrite !lookup_delete_ne].
    change (refreshCalls (Dispatch (logoutRequest st) (KLogout p)
                          :: gatewayTrace (pathname st)))
      with (refreshCalls (gatewayTrace (pathname st))).
    apply refreshCalls_gatewayTrace.
  - pose proof (onReply_starts_refresh (logoutRequest st, KLogout p) st0 rt
                  Hfresh Hrt Hflag) as He.
    cbn [fst snd] in He. rewrite exec_run_cons. cbn [step].
    rewrite He. clear He.
    set (st1 := mkState _ _ _ true _ _).
    set (refresh := mkConfig "/auth/refresh" None false (Some rt)).
    set (resume := KRefresh (set_retry true (logoutRequest st)) (KLogout p)).
    assert (Hrt1 : ifTruthy (localStorage st1 !! "refresh_token") = Some rt).
    { subst st1. cbn [localStorage]. by rewrite gatewayState_refresh_token. }
    pose proof (onReply_enqueues (refresh, resume) st1 rt
                  ltac:(done) Hrt1 eq_refl) as He.
    cbn [fst snd] in He. rewrite exec_run_cons. cbn [step].
    rewrite He, exec_run_nil.
    unfold queuedPromises, clearUserCalls in *.
    cbn [fst snd pathname user isLoading isRefreshing refreshSubscribers
         localStorage st0 st1 gatewayState app head marked promiseOf resume].
    cbn [settledPromises List.filter isClearUser].
    rewrite app_nil_r, map_app, !List.filter_app, !length_app.
    cbn [List.filter isClearUser length map snd promiseOf].
    repeat split; try done.
    + change (refreshCalls (Dispatch (logoutRequest st) (KLogout p) :: ?l))
        with (refreshCalls l).
      by rewrite !refreshCalls_app, !refreshCalls_gatewayTrace.
    + apply Happ; [|done]. by apply Happ.
    + lia.
    + by rewrite !lookup_delete_ne.
Qed.

(** C9.  The claim: calling [logout] twice leaves the absent session with
    all persisted slots empty, both times.  The code: when the request of
    [logout] is answered 401 while a refresh token is persisted, the
    refresh interceptor takes the request for one that needs a new token.
    With the flag raised it puts the request in the queue; with the flag
    lowered it starts a refresh call, and when that call is answered 401
    too it puts the refresh request itself in the queue.  Either way the
    promise that [authApi.logout] awaits never settles, the [finally] block
    of [logout] never runs, and a second call fares no better: after both
    calls no promise has settled, [authApi.clearUser] was never called, the
    identity is still published, the refresh token is still persisted and
    [isLoading] stays raised, although the comments say that the session is
    cleared regardless of the reply. *)
Theorem logout_unauthorized_never_clears (st : State) (p1 p2 : nat)
  (rt : string) (u : User)
  (Hrt : ifTruthy (localStorage st !! "refresh_token") = Some rt)
  (Hu : user st = Some u) :
  let '(st1, t1) := exec (run (logoutUnauthorized st p1 rt)) st in
  let '(st2, t2) := exec (run (logoutUnauthorized st1 p2 rt)) st1 in
  head t1 = Some (Dispatch (logoutRequest st) (KLogout p1))
  /\ refreshCalls t1 =
       (if isRefreshing st then []
        else [Dispatch (mkConfig "/auth/refresh" None false (Some rt))
                       (KRefresh (set_retry true (logoutRequest st))
                                 (KLogout p1))])
  /\ head t2 = Some (Dispatch (logoutRequest st1) (KLogout p2))
  /\ refreshCalls t2 = []
  /\ settledPromises (t1 ++ t2) = []
  /\ clearUserCalls (t1 ++ t2) = 0
  /\ isAuthenticated st1 = true /\ isAuthenticated st2 = true
  /\ user st2 = Some u
  /\ ifTruthy (localStorage st2 !! "refresh_token") = Some rt
  /\ ~ slotsEmpty (localStorage st2)
  /\ isLoading st2 = true
  /\ queuedPromises st2 = queuedPromises st ++ [p1; p2].
Proof.
  pose proof (run_logoutUnauthorized st p1 rt Hrt) as H1.
  destruct (exec (run (logoutUnauthorized st p1 rt)) st) as [st1 t1].
  destruct H1 as (Hh1 & Hr1 & Hs1 & Hc1 & Hu1 & Hl1 & Hf1 & Hp1 & Hrt1 & Hq1).
  assert (Hrt' : ifTruthy (localStorage st1 !! "refresh_token") = Some rt)
    by by rewrite Hrt1.
  pose proof (run_logoutUnauthorized st1 p2 rt Hrt') as H2.
  destruct (exec (run (logoutUnauthorized st1 p2 rt)) st1) as [st2 t2].
  destruct H2 as (Hh2 & Hr2 & Hs2 & Hc2 & Hu2 & Hl2 & Hf2 & Hp2 & Hrt2 & Hq2).
  rewrite Hf1 in Hr2.
  assert (Hrt'' : ifTruthy (localStorage st2 !! "refresh_token") = Some rt)
    by by rewrite Hrt2.
  assert (Hsettled : settledPromises (t1 ++ t2) = []).
  { clear -Hs1 Hs2. induction t1 as [|[] t1 IH]; cbn in *; try done;
      by apply IH. }
  assert (Hclear : clearUserCalls (t1 ++ t2) = 0).
  { unfold clearUserCalls in *. rewrite List.filter_app, length_app. lia. }
  unfold isAuthenticated. rewrite Hu2, Hu1, Hu.
  repeat split; try done.
  - intros Hempty. apply Forall_forall with (x := "refresh_token") in Hempty;
      [|set_solver].
    by rewrite Hempty in Hrt''.
  - by rewrite Hq2, Hq1, <- app_assoc.
Qed.

End Claims.

(** * The claims on the concrete session *)

Section Scenarios.
#[local] Existing Instance refJSON.

(** C1 (as stated) fails: the three requests of [signedIn] receive their
    401 in the order 1, 2, 3 and the refresh succeeds; the requests are put
    on the wire again in the order 2, 3, 1.  The triggering request is
    replayed last, not first.  And without a persisted refresh token the
    three 401s cause no call to the refresh endpoint at all: each request is
    rejected. *)
Lemma replay_order_trigger_last :
  (let t := snd (exec (run refreshSucceeds) signedIn) in
   length (refreshCalls t) = 1
   /\ dispatchedCallers t = [2; 3; 1]
   /\ dispatchedCallers t <> [1; 2; 3])
  /\ (let t := snd (exec (run threeUnauthorized) signedInNoRefreshToken) in
      length (refreshCalls t) = 0
      /\ rejectedPromises t = [1; 2; 3]).
Proof. by vm_compute. Qed.

Lemma single_flight_refresh_witness :
  let '(st1, t1) := exec (run threeUnauthorized) signedIn in
  let '(st2, t2) :=
    exec (onReply refreshRequest refreshResume (ReplyOk (WithUserField alice)))
         st1 in
  refreshCalls t1 = [Dispatch refreshRequest refreshResume]
  /\ isRefreshing st1 = true
  /\ refreshSubscribers st1 =
       [] ++ map marked [(merchantsRequest, KCaller 2);
                         (dashboardRequest, KCaller 3)]
  /\ t2 = map (replay "t1")
            ([] ++ map marked [(merchantsRequest, KCaller 2);
                               (dashboardRequest, KCaller 3)])
          ++ [replay "t1" (marked (usersRequest, KCaller 1))]
  /\ refreshSubscribers st2 = [].
Proof.
  apply (single_flight_refresh signedIn (usersRequest, KCaller 1)
           [(merchantsRequest, KCaller 2); (dashboardRequest, KCaller 3)]
           "r0" "t1" (WithUserField alice) alice).
  - reflexivity.
  - vm_compute. reflexivity.
  - repeat constructor.
  - reflexivity.
  - reflexivity.
Defined.

Lemma refresh_success_stays_refreshing_witness :
  let st := fst (exec (run threeUnauthorized) signedIn) in
  let '(st1, t1) :=
    exec (onReply refreshRequest refreshResume (ReplyOk (WithUserField alice)))
         st in
  let '(st2, t2) :=
    exec (onReply settingsRequest (KCaller 4) unauthorized) st1 in
  isRefreshing st1 = true
  /\ refreshSubscribers st1 = []
  /\ refreshCalls t2 = []
  /\ settledPromises t2 = []
  /\ refreshSubscribers st2 = [marked (settingsRequest, KCaller 4)]
  /\ isRefreshing st2 = true.
Proof.
  apply (refresh_success_stays_refreshing _ refreshRequest
           (set_retry true usersRequest) (KCaller 1) (WithUserField alice)
           alice "t1" "r0" (settingsRequest, KCaller 4)).
  - reflexivity.
  - vm_compute. reflexivity.
  - reflexivity.
  - reflexivity.
  - split; reflexivity.
Defined.

(** The failed refresh on the concrete session.  With promises 2 and 3
    queued, the refresh call is answered with a 500: [authApi.clearUser] is
    called once and promise 1 is rejected, but promises 2 and 3 are not:
    their requests are left in the queue.  When the refresh call is
    answered with a 401, the refresh request itself joins the queue:
    nothing is rejected, [authApi.clearUser] is not called and the flag
    stays raised. *)
Example queued_requests_not_rejected :
  (let '(st, t) := exec (run (refreshFails (Some 500))) signedIn in
   clearUserCalls t = 1
   /\ rejectedPromises t = [1]
   /\ (2 ∉ rejectedPromises t)
   /\ refreshSubscribers st =
        map marked [(merchantsRequest, KCaller 2);
                    (dashboardRequest, KCaller 3)])
  /\ (let '(st, t) := exec (run (refreshFails (Some 401))) signedIn in
      clearUserCalls t = 0
      /\ rejectedPromises t = []
      /\ isRefreshing st = true
      /\ refreshSubscribers st =
           map marked [(merchantsRequest, KCaller 2);
                       (dashboardRequest, KCaller 3);
                       (refreshRequest, refreshResume)]).
Proof.
  vm_compute. repeat split. intros Hin. by apply list_elem_of_singleton in Hin.
Qed.

Lemma refresh_failure_strands_queue_witness :
  let st := fst (exec (run threeUnauthorized) signedIn) in
  queuedPromises st = [2; 3]
  /\ (let '(st1, t1) :=
        exec (onReply refreshRequest refreshResume (ReplyError (Some 500)))
             st in
      isRefreshing st1 = false
      /\ user st1 = None
      /\ clearUserCalls t1 = 1
      /\ refreshCalls t1 = []
      /\ (settledPromises t1).*1 = [1]
      /\ refreshSubscribers st1 = refreshSubscribers st
      /\ (2 ∉ rejectedPromises t1) /\ (3 ∉ rejectedPromises t1)
      /\ queuedPromises st1 = [2; 3]
      /\ forall later,
           refreshCalls (snd (exec (run (map errorReply later)) st1)) = [])
  /\ (let '(st1, t1) := exec (onReply refreshRequest refreshResume unauthorized)
                             st in
      isRefreshing st1 = true
      /\ clearUserCalls t1 = 0
      /\ refreshCalls t1 = []
      /\ settledPromises t1 = []
      /\ refreshSubscribers st1 =
           refreshSubscribers st
           ++ [(set_retry true refreshRequest, refreshResume)]).
Proof.
  intros st.
  assert (Hqueue : queuedPromises st = [2; 3]) by (vm_compute; reflexivity).
  destruct (refresh_failure_strands_queue st refreshRequest
              (set_retry true usersRequest) (KCaller 1) (Some 500))
    as (Hrejects & _).
  destruct (refresh_failure_strands_queue st refreshRequest
              (set_retry true usersRequest) (KCaller 1) (Some 401))
    as (_ & Hunauthorized & _).
  split; [exact Hqueue|]. split.
  - assert (Hstatus : Some 500 <> Some 401) by discriminate.
    specialize (Hrejects Hstatus).
    change (KRefresh (set_retry true usersRequest) (KCaller 1))
      with refreshResume in Hrejects.
    destruct (exec (onReply refreshRequest refreshResume
                      (ReplyError (Some 500))) st) as [st1 t1].
    destruct Hrejects
      as (Hflag & Hu & _ & Hcalls & Hs & Hq & Hstranded & Honce & Hlater).
    assert (H2 : 2 ∈ queuedPromises st)
      by (rewrite Hqueue; apply list_elem_of_here).
    assert (H3 : 3 ∈ queuedPromises st)
      by (rewrite Hqueue; apply list_elem_of_further, list_elem_of_here).
    destruct (Hstranded 2 H2 ltac:(discriminate)) as (_ & Hr2 & _).
    destruct (Hstranded 3 H3 ltac:(discriminate)) as (_ & Hr3 & _).
    assert (Hq1 : queuedPromises st1 = [2; 3])
      by (unfold queuedPromises in *; by rewrite Hq).
    exact (conj Hflag (conj Hu (conj (Honce 1 (or_introl eq_refl))
            (conj Hcalls (conj Hs (conj Hq (conj Hr2 (conj Hr3
            (conj Hq1 Hlater))))))))).
  - apply (Hunauthorized "r0").
    + split; reflexivity.
    + vm_compute. reflexivity.
    + vm_compute. reflexivity.
Defined.



Lemma getPermissions_prototype_key_witness :
  let eve := mkUser 1 "Eve" "eve@example.com" (Some "constructor") None None in
  getPermissions (Some eve) = Inherited "constructor"
  /\ getPermissions (Some eve) <> Own merchantPermissions
  /\ (forall k, hasPermission (Some eve) k = false)
  /\ readFlag merchantPermissions KCanViewMerchants = true.
Proof.
  apply (getPermissions_prototype_key
           (mkUser 1 "Eve" "eve@example.com" (Some "constructor") None None)
           "constructor").
  - reflexivity.
  - by apply (bool_decide_unpack _).
Defined.

Lemma ProtectedRoute_decision_witness :
  ProtectedRoute signedIn (Some [super_admin; admin]) = Allow
  /\ ProtectedRoute signedIn (Some [super_admin]) = RedirectDashboard.
Proof.
  destruct (ProtectedRoute_decision signedIn eq_refl)
    as (_ & Hadmin & _ & Hexact & _).
  split.
  - by apply (Hadmin alice).
  - apply (Hexact alice [super_admin] eq_refl).
    intros (a & Ha & Hrole). apply list_elem_of_singleton in Ha as ->.
    discriminate.
Defined.

Lemma retried_request_is_rejected_witness :
  let config := set_retry true usersRequest in
  let '(st1, t1) := exec (onReply config (KCaller 1) unauthorized) signedIn in
  settledPromises t1 = [(1, Rejected (AxiosError config (Some 401)))]
  /\ rejectedPromises t1 = [1]
  /\ refreshCalls t1 = []
  /\ isRefreshing st1 = isRefreshing signedIn
  /\ refreshSubscribers st1 = refreshSubscribers signedIn.
Proof.
  apply (retried_request_is_rejected signedIn (set_retry true usersRequest) 1).
  reflexivity.
Defined.

Lemma isAuthenticated_iff_identity_witness :
  exists st',
    initializeAuth tokenOnly = Returns st'
    /\ isAuthenticated st' = false.
Proof.
  destruct (isAuthenticated_iff_identity tokenOnly)
    as (_ & st' & Hinit & _ & Hnone).
  exists st'. split; [exact Hinit|]. by apply Hnone.
Defined.

Lemma getStoredUser_corrupted_witness :
  authApi.getStoredUser (localStorage corrupted) = Returns None
  /\ initializeAuth corrupted =
       Returns (mkState (localStorage corrupted) None false false []
                        "/dashboard").
Proof.
  apply (getStoredUser_corrupted corrupted).
  right. right. right. exists "{oops", SyntaxError. split; reflexivity.
Defined.

Lemma logout_unauthorized_never_clears_witness :
  let '(st1, t1) := exec (run (logoutUnauthorized signedIn 8 "r0")) signedIn in
  let '(st2, t2) := exec (run (logoutUnauthorized st1 9 "r0")) st1 in
  head t1 = Some (Dispatch (logoutRequest signedIn) (KLogout 8))
  /\ refreshCalls t1 =
       [Dispatch refreshRequest
                 (KRefresh (set_retry true (logoutRequest signedIn))
                           (KLogout 8))]
  /\ head t2 = Some (Dispatch (logoutRequest st1) (KLogout 9))
  /\ refreshCalls t2 = []
  /\ settledPromises (t1 ++ t2) = []
  /\ clearUserCalls (t1 ++ t2) = 0
  /\ isAuthenticated st1 = true /\ isAuthenticated st2 = true
  /\ user st2 = Some alice
  /\ ifTruthy (localStorage st2 !! "refresh_token") = Some "r0"
  /\ ~ slotsEmpty (localStorage st2)
  /\ isLoading st2 = true
  /\ queuedPromises st2 = queuedPromises signedIn ++ [8; 9].
Proof.
  apply (logout_unauthorized_never_clears signedIn 8 9 "r0" alice).
  - vm_compute. reflexivity.
  - reflexivity.
Defined.

(** The same after a successful refresh, which leaves the flag raised: the
    two requests of [logout] join the queue at once; no refresh call is
    made for them. *)
Example logout_after_refresh_never_clears :
  let st := fst (exec (run refreshSucceeds) signedIn) in
  let '(st2, t2) :=
    exec (run (logoutUnauthorized st 8 "r1"
               ++ [Logout 9;
                   Response (mkConfig "/auth/logout" None false (Some "r1"))
                            (KLogout 9) unauthorized])) st in
  isRefreshing st = true
  /\ refreshCalls t2 = []
  /\ settledPromises t2 = []
  /\ clearUserCalls t2 = 0
  /\ user st2 = Some alice
  /\ localStorage st2 !! "refresh_token" = Some "r1"
  /\ queuedPromises st2 = [8; 9].
Proof. by vm_compute. Qed.

(** A failed login on the login page, with nothing persisted: the gateway
    leaves the session alone, the refresh interceptor calls
    [authApi.clearUser] and the caller of [login] receives the error that
    the [catch] block of [login] makes from the 401. *)
Example login_unauthorized :
  snd (exec (onReply loginRequest (KLogin 5) unauthorized) signedOut) =
    [ClearUser; RemoveItem "user_data"; RemoveItem "refresh_token";
     Settle 5 (Rejected
                 (LoginError
                    (AxiosError (set_retry true loginRequest) (Some 401))))].
Proof. by vm_compute. Qed.

(** Logging in as an administrator, then opening the users view, which
    lists [super_admin] only: the guard redirects to the dashboard; the
    merchants view is allowed. *)
Example login_then_users_route :
  let '(st, t) :=
    exec (run [Login 5;
               Response loginRequest (KLogin 5) (ReplyOk (WithUserField alice))])
         signedOut in
  settledPromises t = [(5, Fulfilled NoData)]
  /\ localStorage st !! "auth_token" = Some "t1"
  /\ localStorage st !! "refresh_token" = Some "r1"
  /\ authApi.getStoredUser (localStorage st) = Returns (Some alice)
  /\ isAuthenticated st = true
  /\ ProtectedRoute st (Some [super_admin]) = RedirectDashboard
  /\ ProtectedRoute st (Some [super_admin; admin]) = Allow
  /\ ProtectedRoute st None = Allow.
Proof. by vm_compute. Qed.

End Scenarios.

(** * Further properties *)

(** ** Permissions, guards, sidebar and pages *)

(** X1.  For every user, whatever the role string: the four user-management
    flags are granted exactly to [super_admin]; creating, updating, deleting
    and viewing all merchants exactly to [super_admin] and [admin]; viewing
    merchants to every user whose role does not name a member of
    [Object.prototype].  Without a user nothing is granted. *)
Theorem hasPermission_by_role (user : option User) (k : PermissionKey) :
  hasPermission user k =
    match k with
    | KCanViewUsers | KCanCreateUsers | KCanUpdateUsers | KCanDeleteUsers =>
        isSuperAdmin user
    | KCanCreateMerchants | KCanUpdateMerchants | KCanDeleteMerchants
    | KCanViewAllMerchants =>
        isSuperAdmin user || isAdmin user
    | KCanViewMerchants =>
        match user with
        | Some u =>
            negb (bool_decide (toPropertyKey (role u) ∈ objectPrototypeKeys))
        | None => false
        end
    end.
Proof.
  destruct user as [u|]; [|by destruct k].
  unfold hasPermission, getPermissions, getProperty, isSuperAdmin, isAdmin.
  rewrite rolePermissions_own.
  destruct (role u) as [r|]; cbn [toPropertyKey].
  - destruct (String.eqb_spec r "super_admin") as [->|Hs]; [by destruct k|].
    destruct (String.eqb_spec r "admin") as [->|Ha]; [by destruct k|].
    rewrite (bool_decide_eq_false_2 (Some r = Some "super_admin")) by congruence.
    rewrite (bool_decide_eq_false_2 (Some r = Some "admin")) by congruence.
    destruct (String.eqb_spec r "merchant") as [->|Hm]; [by destruct k|].
    case_bool_decide; by destruct k.
  - by destruct k.
Qed.

(** X2.  [canAccessRoute] of the hook and the guard of the route table take
    the same decision: in an initialised session, [canAccessRoute] answers
    [true] for an allowlist exactly when [ProtectedRoute] with that
    allowlist lets the user through. *)
Theorem canAccessRoute_is_the_guard (st : State) (requiredRoles : list UserRole)
  (Hinit : isLoading st = false) :
  canAccessRoute (user st) requiredRoles = true
  <-> ProtectedRoute st (Some requiredRoles) = Allow.
Proof.
  unfold canAccessRoute, ProtectedRoute, isAuthenticated. rewrite Hinit.
  destruct (user st) as [u|]; cbn; [|done].
  by destruct (rolesInclude requiredRoles (role u)).
Qed.

Lemma render_protected (st : State) (allowedRoles : option (list UserRole))
  (children : Element) :
  ProtectedRoute st allowedRoles = Allow ->
  render st (WithProtectedRoute allowedRoles children) = render st children.
Proof. intros Hallow. cbn [render]. by rewrite Hallow. Qed.

(** What the guard decides for an authenticated user. *)
Lemma ProtectedRoute_authenticated (st : State) (u : User)
  (allowedRoles : option (list UserRole)) :
  isLoading st = false -> user st = Some u ->
  ProtectedRoute st allowedRoles =
    match allowedRoles with
    | Some roles =>
        if rolesInclude roles (role u) then Allow else RedirectDashboard
    | None => Allow
    end.
Proof.
  intros Hinit Hu. unfold ProtectedRoute, isAuthenticated. rewrite Hinit, Hu.
  cbn. destruct allowedRoles as [roles|]; [|done].
  by destruct (rolesInclude roles (role u)).
Qed.

Lemma rolesInclude_cons (a : UserRole) (roles : list UserRole)
  (r : option string) :
  rolesInclude (a :: roles) r
  = bool_decide (r = Some (roleName a)) || rolesInclude roles r.
Proof.
  unfold rolesInclude. cbn [existsb]. f_equal. apply bool_decide_ext. naive_solver.
Qed.

(** The three routes of the sidebar, for an authenticated user. *)
Lemma render_dashboard (st : State) (u : User) :
  isLoading st = false -> user st = Some u ->
  render st (router "/dashboard") = Shows "DashboardPage".
Proof.
  intros Hinit Hu. cbn. by rewrite (ProtectedRoute_authenticated st u).
Qed.

Lemma render_users (st : State) (u : User) :
  isLoading st = false -> user st = Some u ->
  render st (router "/users") =
    if isSuperAdmin (Some u) then Shows "UsersListingPage"
    else RedirectTo "/dashboard".
Proof.
  intros Hinit Hu. cbn -[rolesInclude].
  rewrite !(ProtectedRoute_authenticated st u) by done. cbn [viewOfGuard].
  rewrite rolesInclude_cons. unfold UsersPage. rewrite Hu. cbn.
  by destruct (bool_decide (role u = Some "super_admin")).
Qed.

Lemma render_merchants (st : State) (u : User) :
  isLoading st = false -> user st = Some u ->
  render st (router "/merchants") =
    if isSuperAdmin (Some u) || isAdmin (Some u)
    then Shows "MerchantsListingPage"
    else RedirectTo "/dashboard".
Proof.
  intros Hinit Hu. cbn -[rolesInclude].
  rewrite !(ProtectedRoute_authenticated st u) by done. cbn [viewOfGuard].
  rewrite !rolesInclude_cons. unfold MerchantsPage. rewrite Hu. cbn.
  by destruct (bool_decide (role u = Some "super_admin")),
              (bool_decide (role u = Some "admin")).
Qed.

Lemma roleOrEmpty_eqb (u : User) (r : string) :
  r <> "" ->
  String.eqb (Sidebar.roleOrEmpty (Some u)) r = bool_decide (role u = Some r).
Proof.
  intros Hr. unfold Sidebar.roleOrEmpty, ifTruthy.
  assert (Hempty : String.eqb "" r = false) by (apply String.eqb_neq; congruence).
  destruct (role u) as [x|]; [destruct (String.eqb_spec x "") as [->|Hx]|];
    cbv beta iota delta [default Datatypes.id].
  - rewrite Hempty, bool_decide_eq_false_2; [done|congruence].
  - destruct (decide (x = r)) as [->|Hne].
    + by rewrite String.eqb_refl, bool_decide_eq_true_2.
    + rewrite (proj2 (String.eqb_neq x r)) by done.
      rewrite bool_decide_eq_false_2; [done|congruence].
  - by rewrite Hempty, bool_decide_eq_false_2.
Qed.

(** X3.  In an initialised session the sidebar never shows a link that the
    route table would not render: every item of [filteredNavigation] opens
    its page without a redirect and without the permission panel. *)
Theorem sidebar_links_are_allowed (st : State) (item : Sidebar.Item)
  (Hinit : isLoading st = false)
  (Hitem : item ∈ Sidebar.filteredNavigation (user st)) :
  exists component, render st (router (Sidebar.href item)) = Shows component.
Proof.
  unfold Sidebar.filteredNavigation in Hitem.
  apply list_elem_of_In, List.filter_In in Hitem as [Hin Hrole].
  destruct (user st) as [u|] eqn:Hu.
  - cbn in Hin. destruct Hin as [<- | [<- | [<- | []]]];
      cbn [Sidebar.href Sidebar.roles existsb] in *;
      rewrite ?roleOrEmpty_eqb in Hrole by done.
    + rewrite (render_dashboard st u) by done. by eexists.
    + rewrite (render_users st u) by done. cbn [isSuperAdmin].
      rewrite orb_false_r in Hrole. rewrite Hrole. by eexists.
    + rewrite (render_merchants st u) by done. cbn [isSuperAdmin isAdmin].
      rewrite orb_false_r in Hrole. rewrite Hrole. by eexists.
  - cbn in Hrole. cbn in Hin.
    by destruct Hin as [<- | [<- | [<- | []]]].
Qed.

(** X4.  For a user with one of the three roles the sidebar is complete as
    well: every item of [navigation] whose route renders its page for that
    user is listed by [filteredNavigation]. *)
Theorem sidebar_complete (st : State) (u : User) (r : UserRole)
  (item : Sidebar.Item)
  (Hinit : isLoading st = false)
  (Hu : user st = Some u)
  (Hr : role u = Some (roleName r))
  (Hin : item ∈ Sidebar.navigation)
  (Hrenders : exists component,
      render st (router (Sidebar.href item)) = Shows component) :
  item ∈ Sidebar.filteredNavigation (user st).
Proof.
  destruct Hrenders as [c Hc]. rewrite Hu.
  apply list_elem_of_In, List.filter_In. apply list_elem_of_In in Hin as Hin'.
  split; [done|]. clear Hin'.
  unfold Sidebar.navigation in Hin.
  repeat (apply elem_of_cons in Hin as [-> | Hin]);
    [| | |by apply elem_of_nil in Hin];
    cbn [Sidebar.href Sidebar.roles existsb] in *;
    rewrite ?roleOrEmpty_eqb by done.
  - rewrite Hr. by destruct r.
  - rewrite (render_users st u) in Hc by done. cbn [isSuperAdmin] in Hc.
    by destruct (bool_decide (role u = Some "super_admin")).
  - rewrite (render_merchants st u) in Hc by done.
    cbn [isSuperAdmin isAdmin] in Hc. rewrite orb_false_r.
    by destruct (bool_decide (role u = Some "super_admin")),
                (bool_decide (role u = Some "admin")).
Qed.

(** What a path renders to without a session. *)
Lemma render_unauthenticated (st : State) (path : string) :
  isLoading st = false -> user st = None ->
  render st (router path) =
    if String.eqb path "/login" then Shows "LoginPage"
    else if String.eqb path "/forgot-password" then Shows "ForgotPasswordPage"
    else if String.eqb path "/reset-password" then Shows "ResetPasswordPage"
    else if String.eqb path "/" || String.eqb path "/dashboard"
            || String.eqb path "/users" || String.eqb path "/merchants"
            || String.eqb path "/settings"
    then RedirectTo "/login"
    else RedirectTo "/dashboard".
Proof.
  intros Hinit Hu. unfold router.
  repeat (destruct (String.eqb path _); [
    cbn; unfold AuthRoute, ProtectedRoute, isAuthenticated;
    by rewrite Hinit, Hu|]).
  done.
Qed.

(** What a path renders to for an authenticated user. *)
Lemma render_authenticated (st : State) (u : User) (path : string) :
  isLoading st = false -> user st = Some u ->
  render st (router path) =
    if String.eqb path "/dashboard" then Shows "DashboardPage"
    else if String.eqb path "/users" then
      if isSuperAdmin (Some u) then Shows "UsersListingPage"
      else RedirectTo "/dashboard"
    else if String.eqb path "/merchants" then
      if isSuperAdmin (Some u) || isAdmin (Some u)
      then Shows "MerchantsListingPage"
      else RedirectTo "/dashboard"
    else if String.eqb path "/settings" then Shows "SettingsPage"
    else RedirectTo "/dashboard".
Proof.
  intros Hinit Hu.
  destruct (String.eqb_spec path "/dashboard") as [->|H1];
    [by apply (render_dashboard st u)|].
  destruct (String.eqb_spec path "/users") as [->|H2];
    [by apply (render_users st u)|].
  destruct (String.eqb_spec path "/merchants") as [->|H3];
    [by apply (render_merchants st u)|].
  unfold router.
  repeat match goal with
  | |- context [String.eqb path ?s] =>
      destruct (String.eqb_spec path s) as [->|?]; [
        try done; cbn; unfold AuthRoute, isAuthenticated;
        rewrite ?(ProtectedRoute_authenticated st u) by done;
        by rewrite ?Hinit, ?Hu|]
  end.
  done.
Qed.

(** X5.  The guards never send the browser in a circle.  In an initialised
    session, opening any path and following the redirects of the route
    table shows a page after at most two redirects; the spinner and the
    permission panel of [UsersPage] and [MerchantsPage] are never the
    result.  Without a session the page shown is one of the three public
    pages; with a session it is never one of them. *)
Theorem redirects_reach_a_page (st : State) (path : string)
  (Hinit : isLoading st = false) :
  exists component,
    visit 2 st path = Shows component
    /\ (isAuthenticated st = false <->
        component ∈ ["LoginPage"; "ForgotPasswordPage"; "ResetPasswordPage"]).
Proof.
  unfold isAuthenticated. destruct (user st) as [u|] eqn:Hu.
  - assert (Hdash : visit 1 st "/dashboard" = Shows "DashboardPage").
    { cbn [visit]. by rewrite (render_dashboard st u). }
    change (visit 2 st path) with
      (match render st (router path) with
       | RedirectTo to => visit 1 st to
       | v => v
       end).
    rewrite (render_authenticated st u path) by done.
    repeat match goal with
    | |- context [if ?b then _ else _] => destruct b
    end; rewrite ?Hdash; eexists; (split; [reflexivity|]).
    all: split; [done|]; intros Hin.
    all: repeat (apply elem_of_cons in Hin as [Hin | Hin]); try done.
    all: by apply elem_of_nil in Hin.
  - assert (Hlogin : visit 0 st "/login" = Shows "LoginPage").
    { cbn [visit]. by rewrite render_unauthenticated. }
    assert (Hdash : visit 1 st "/dashboard" = Shows "LoginPage").
    { cbn [visit]. by rewrite render_unauthenticated. }
    assert (Hlogin1 : visit 1 st "/login" = Shows "LoginPage").
    { cbn [visit]. by rewrite render_unauthenticated. }
    change (visit 2 st path) with
      (match render st (router path) with
       | RedirectTo to => visit 1 st to
       | v => v
       end).
    rewrite (render_unauthenticated st path) by done.
    repeat match goal with
    | |- context [if ?b then _ else _] => destruct b
    end; rewrite ?Hdash, ?Hlogin1; eexists; (split; [reflexivity|]).
    all: split; [intros _; set_solver|done].
Qed.

(** ** Replies and the session *)

Section Session.
Context {json : JSON}.

(** X6.  An error reply with any status other than 401 (403, 422, 5xx) or
    without a status (network failure, timeout) passes both interceptors
    untouched: the state is unchanged, nothing is erased or sent, no
    navigation happens, and the promise of the caller is rejected: that of
    a component with that very error, that of [login] with the error its
    [catch] block makes from it. *)
Theorem other_errors_pass_through (st : State) (config : Config) (p : nat)
  (status : option nat) (Hstatus : status <> Some 401) :
  exec (onReply config (KCaller p) (ReplyError status)) st
    = (st, [Settle p (Rejected (AxiosError config status))])
  /\ exec (onReply config (KLogin p) (ReplyError status)) st
    = (st, [Settle p (Rejected (LoginError (AxiosError config status)))]).
Proof.
  assert (H401 : is401 status = false) by by apply bool_decide_eq_false_2.
  split; rewrite exec_onReply_error;
    (rewrite clientResponseError_other by by rewrite H401);
    (rewrite authResponseError_passes by by rewrite H401);
    by destruct st.
Qed.

Lemma exec_settle_login (p : nat) (d : ResponseData) (st : State) :
  exec (settle (KLogin p) (Fulfilled d)) st =
    match extractUserData d ≫= fun u => (fun t => (u, t)) <$> ifTruthy (token u) with
    | Some (u, t) =>
        (mkState (committedStorage u t (localStorage st)) (Some u)
                 (isLoading st) (isRefreshing st) (refreshSubscribers st)
                 (pathname st),
         [Settle p (Fulfilled NoData)])
    | None =>
        (st, [Settle p (Rejected
                          (LoginError (ErrorMessage "Invalid login response")))])
    end.
Proof.
  cbn [settle]. destruct (extractUserData d) as [u|]; cbn; [|by destruct st].
  destruct (ifTruthy (token u)) as [t|]; cbn; [|by destruct st].
  by rewrite exec_seq, exec_storeSession.
Qed.

(** X7.  A 2xx reply to [login] either carries a user record with a
    non-empty token, and then the token, the refresh token (if the record
    has one), and the identity are persisted, the identity is published and
    the promise resolves; or it does not, and then nothing at all changes
    and the promise is rejected with the invalid-response error.  A
    half-written session is never left behind. *)
Theorem login_commits_all_or_nothing (st : State) (config : Config) (p : nat)
  (d : ResponseData) :
  let '(st1, t1) := exec (onReply config (KLogin p) (ReplyOk d)) st in
  (exists u t,
      extractUserData d = Some u /\ ifTruthy (token u) = Some t
      /\ t1 = [Settle p (Fulfilled NoData)]
      /\ user st1 = Some u
      /\ localStorage st1 !! "auth_token" = Some t
      /\ localStorage st1 !! "user_data" = Some (JSON_stringify u)
      /\ localStorage st1 !! "refresh_token" =
           match ifTruthy (refresh_token u) with
           | Some r => Some r
           | None => localStorage st !! "refresh_token"
           end)
  \/ ((extractUserData d ≫= fun u => ifTruthy (token u)) = None
      /\ st1 = st
      /\ t1 = [Settle p (Rejected
                           (LoginError
                              (ErrorMessage "Invalid login response")))]).
Proof.
  cbn [onReply]. rewrite exec_settle_login.
  destruct (extractUserData d) as [u|]; cbn; [|by right].
  destruct (ifTruthy (token u)) as [t|] eqn:Ht; cbn; [|by right].
  left. exists u, t. repeat split; try done.
  - apply committedStorage_token.
  - unfold committedStorage. apply lookup_insert_eq.
  - unfold committedStorage. rewrite lookup_insert_ne by done.
    destruct (ifTruthy (refresh_token u)).
    + apply lookup_insert_eq.
    + by rewrite lookup_insert_ne.
Qed.

Lemma getStoredUser_committed (u : User) (t : string) (ls : gmap string string) :
  roundTrips u ->
  authApi.getStoredUser (committedStorage u t ls) = Returns (Some u).
Proof.
  intros (Hparse & Hne & Hu & Hn). unfold authApi.getStoredUser, committedStorage.
  rewrite lookup_insert_eq. unfold ifTruthy.
  rewrite (proj2 (String.eqb_neq _ _) Hne).
  rewrite (proj2 (String.eqb_neq _ _) Hu), (proj2 (String.eqb_neq _ _) Hn).
  cbn. by rewrite Hparse.
Qed.

Lemma restoredBy_committed (u : User) (tok : string) (st : State)
  (ls : gmap string string) :
  roundTrips u -> ifTruthy (token u) = Some tok ->
  localStorage st = committedStorage u tok ls ->
  restoredBy u st.
Proof.
  intros Hrt Htok Hls. unfold restoredBy, initializeAuth, reload.
  cbn [localStorage]. rewrite Hls, getStoredUser_committed by done.
  unfold authApi.isAuthenticated. rewrite committedStorage_token.
  assert (Htruthy : truthy (Some tok) = true).
  { apply ifTruthy_idem in Htok. unfold ifTruthy in Htok. cbn.
    by destruct (String.eqb tok ""). }
  by rewrite Htruthy.
Qed.

Lemma registerSettled_success (d : ResponseData) (u : User) (t : string)
  (st : State) :
  extractUserData d = Some u -> ifTruthy (token u) = Some t ->
  registerSettled (Fulfilled d) st =
    (Fulfilled NoData,
     mkState (committedStorage u t (localStorage st)) (Some u) false
             (isRefreshing st) (refreshSubscribers st) (pathname st),
     []).
Proof.
  intros Hd Ht. unfold registerSettled. rewrite Hd, Ht.
  pose proof (exec_storeSession u t st) as Hs. unfold exec in Hs.
  unfold mbind, M_bind, bind at 1 2 3.
  destruct (storeSession u t st) as [[[] st1] e1]. injection Hs as -> ->.
  by cbn.
Qed.

(** X8.  A session committed by a successful login, by a successful token
    refresh or by a successful registration survives a page load: if
    [JSON.parse] reads back what [JSON.stringify] wrote for the user record,
    [initializeAuth] on the reloaded page publishes that same identity. *)
Theorem committed_session_survives_reload (st : State) (config : Config)
  (p : nat) (originalRequest : Config) (k : Kont) (d : ResponseData)
  (u : User) (t : string)
  (Hd : extractUserData d = Some u)
  (Ht : ifTruthy (token u) = Some t)
  (Hjson : roundTrips u) :
  restoredBy u (fst (exec (onReply config (KLogin p) (ReplyOk d)) st))
  /\ restoredBy u
       (fst (exec (onReply config (KRefresh originalRequest k) (ReplyOk d)) st))
  /\ restoredBy u (snd (fst (registerSettled (Fulfilled d) st))).
Proof.
  repeat split.
  - cbn [onReply]. rewrite exec_settle_login, Hd. cbn. rewrite Ht. cbn.
    by eapply restoredBy_committed.
  - cbn [onReply]. rewrite (settle_refresh_success _ _ d u t) by done.
    by eapply restoredBy_committed.
  - rewrite (registerSettled_success d u t) by done.
    by eapply restoredBy_committed.
Qed.

(** X9.  Once the promise of its request has settled, [register] ends its
    loading phase, however the promise settled.  It resolves exactly when
    the reply carries a user record with a token, and then the registered
    user's tokens and identity replace the session of whoever was signed
    in; otherwise it is rejected and the session is left as it was. *)
Theorem register_settles (st : State) (r : Settled) :
  let '(result, st1, t1) := registerSettled r st in
  isLoading st1 = false
  /\ t1 = []
  /\ (isRefreshing st1, refreshSubscribers st1, pathname st1)
     = (isRefreshing st, refreshSubscribers st, pathname st)
  /\ match result with
     | Fulfilled _ =>
         exists d u t,
           r = Fulfilled d /\ extractUserData d = Some u
           /\ ifTruthy (token u) = Some t
           /\ user st1 = Some u
           /\ localStorage st1 = committedStorage u t (localStorage st)
     | Rejected _ =>
         user st1 = user st /\ localStorage st1 = localStorage st
         /\ (forall d u, r = Fulfilled d -> extractUserData d = Some u ->
             ifTruthy (token u) = None)
     end.
Proof.
  destruct r as [d|e].
  - destruct (extractUserData d) as [u|] eqn:Hd.
    + destruct (ifTruthy (token u)) as [t|] eqn:Ht.
      * rewrite (registerSettled_success d u t) by done.
        repeat split. by exists d, u, t.
      * unfold registerSettled. rewrite Hd, Ht. destruct st. cbn.
        repeat split. intros d' u' [= <-]. rewrite Hd. by intros [= <-].
    + unfold registerSettled. rewrite Hd. destruct st. cbn.
      repeat split. intros d' u' [= <-]. by rewrite Hd.
  - destruct st. cbn. by repeat split.
Qed.


(** X11.  When the profile reply has no [data] ([undefined] or [null]),
    [refreshUser] unpublishes the identity and overwrites the persisted one
    with the text ["undefined"] or ["null"]: the session is unauthenticated
    at once and stays so after a page load, although the access token and
    the refresh token are still persisted. *)
Theorem refreshUser_without_data (st : State) (r : ProfileReply)
  (Hempty : r = ProfileUndefined \/ r = ProfileNull) :
  let st1 := fst (exec (refreshUserSettled r) st) in
  isAuthenticated st1 = false
  /\ authApi.getStoredUser (localStorage st1) = Returns None
  /\ initializeAuth (reload st1)
     = Returns (mkState (localStorage st1) None false false [] (pathname st))
  /\ authApi.isAuthenticated (localStorage st1)
     = authApi.isAuthenticated (localStorage st).
Proof.
  destruct st as [ls usr ld rf qs path].
  assert (Hget : forall text,
    text = "undefined" \/ text = "null" ->
    authApi.getStoredUser (<["user_data" := text]> ls) = Returns None).
  { intros text Htext. unfold authApi.getStoredUser.
    rewrite lookup_insert_eq. by destruct Htext as [-> | ->]. }
  destruct Hempty as [-> | ->]; cbn [refreshUserSettled]; unfold_m;
    unfold initializeAuth, reload, authApi.isAuthenticated; cbn;
    rewrite Hget by auto; rewrite lookup_insert_ne by done; by repeat split.
Qed.

(** X12.  A 2xx reply of the refresh endpoint without a user record, or
    with a record without a non-empty token, is handled like a failed
    refresh.  When the refresh was triggered by the request of a component:
    nothing is stored, [authApi.clearUser] is called once, the flag is
    lowered, the absent session is published and the triggering request is
    rejected; the persisted access token and the queue are not touched. *)
Theorem refresh_without_token_fails (st : State)
  (refreshRequest originalRequest : Config) (p : nat) (d : ResponseData)
  (Hd : (extractUserData d ≫= fun u => ifTruthy (token u)) = None) :
  exec (onReply refreshRequest (KRefresh originalRequest (KCaller p)) (ReplyOk d))
       st
  = (mkState (delete "refresh_token" (delete "user_data" (localStorage st)))
             None (isLoading st) false (refreshSubscribers st) (pathname st),
     [ClearUser; RemoveItem "user_data"; RemoveItem "refresh_token";
      Settle p (Rejected
                  (match extractUserData d with
                   | None => TypeError
                   | Some _ => ErrorMessage "No token in refresh response"
                   end))]).
Proof.
  cbn [onReply settle]. destruct st as [ls usr ld rf qs path].
  destruct (extractUserData d) as [u|]; cbn in Hd; rewrite ?Hd; by unfold_m.
Qed.


End Session.

(** ** Invariants of every run *)

Section Invariants.
Context {json : JSON}.

(** A property of the state that the writes of the program keep: writes to
    and erasures of the three session slots, the setters of the React
    state and of the flag, enqueueing a marked request and emptying the
    queue. *)
Variable I : State -> Prop.
Hypothesis I_setItem :
  forall key value, key ∈ sessionSlots -> Preserves I (setItem key value).
Hypothesis I_removeItem :
  forall key, key ∈ sessionSlots -> Preserves I (removeItem key).
Hypothesis I_setUser : forall u, Preserves I (setUser u).
Hypothesis I_setIsLoading : forall b, Preserves I (setIsLoading b).
Hypothesis I_setIsRefreshing : forall b, Preserves I (setIsRefreshing b).
Hypothesis I_subscribe :
  forall c k, _retry c = true -> Preserves I (subscribeTokenRefresh (c, k)).
Hypothesis I_emptyQueue : Preserves I (setRefreshSubscribers []).

Lemma Preserves_ret {A : Type} (a : A) : Preserves I (mret a).
Proof. by intros st. Qed.

Lemma Preserves_bind {A B : Type} (m : M A) (f : A -> M B) :
  Preserves I m -> (forall a, Preserves I (f a)) -> Preserves I (m ≫= f).
Proof.
  intros Hm Hf st Hst. unfold mbind, M_bind, bind.
  specialize (Hm st Hst). destruct (m st) as [[a st1] e1]. cbn in Hm.
  specialize (Hf a st1 Hm). by destruct (f a st1) as [[b st2] e2].
Qed.

Lemma Preserves_gets {A : Type} (f : State -> A) : Preserves I (gets f).
Proof. by intros st. Qed.

Lemma Preserves_emit (e : Effect) : Preserves I (emit e).
Proof. by intros st. Qed.

Lemma Preserves_when (b : bool) (m : M unit) :
  Preserves I m -> Preserves I (when b m).
Proof. intros Hm. destruct b; [done|apply (Preserves_ret tt)]. Qed.

Lemma Preserves_forEach {A : Type} (l : list A) (f : A -> M unit) :
  (forall a, Preserves I (f a)) -> Preserves I (forEach l f).
Proof.
  intros Hf. induction l as [|x l IH]; [apply (Preserves_ret tt)|].
  cbn [forEach]. by apply Preserves_bind.
Qed.

Lemma Preserves_apiClient (config : Config) (k : Kont) :
  Preserves I (apiClient config k).
Proof.
  unfold apiClient, requestInterceptor. apply Preserves_bind.
  - apply Preserves_bind; [apply Preserves_gets|].
    intros v. destruct (ifTruthy v); apply Preserves_ret.
  - intros c. apply Preserves_emit.
Qed.

(** Decomposing a computation into the writes it is made of. *)
Ltac preserves :=
  repeat first
    [ apply Preserves_apiClient
    | apply Preserves_emit
    | apply Preserves_gets
    | apply Preserves_ret
    | apply (Preserves_ret tt)
    | apply I_setUser
    | apply I_setIsLoading
    | apply I_setIsRefreshing
    | apply I_emptyQueue
    | apply I_removeItem; set_solver
    | apply I_setItem; set_solver
    | apply Preserves_when
    | apply Preserves_forEach; intros ?
    | apply Preserves_bind; [|intros ?] ].

Lemma Preserves_clearUser : Preserves I authApi.clearUser.
Proof. unfold authApi.clearUser. preserves. Qed.

Lemma Preserves_storeSession (u : User) (t : string) :
  Preserves I (storeSession u t).
Proof.
  unfold storeSession, authApi.storeRefreshToken, authApi.storeUser.
  destruct (ifTruthy (refresh_token u)); preserves.
Qed.

Lemma Preserves_onTokenRefreshed (t : string) : Preserves I (onTokenRefreshed t).
Proof. unfold onTokenRefreshed, callSubscriber. preserves. Qed.

Lemma Preserves_settle (k : Kont) (r : Settled) : Preserves I (settle k r).
Proof.
  revert r. induction k as [p|orig k IH|p|p]; intros r; cbn [settle].
  - preserves.
  - assert (Hcatch : forall e, Preserves I
      (setIsRefreshing false;; authApi.clearUser;; setUser None;;
       settle k (Rejected e))).
    { intros e. apply Preserves_bind; [preserves|intros _].
      apply Preserves_bind; [apply Preserves_clearUser|intros _].
      apply Preserves_bind; [preserves|intros _]. apply IH. }
    destruct r as [d|e]; [|apply Hcatch].
    destruct (extractUserData d) as [u|]; [|apply Hcatch].
    destruct (ifTruthy (token u)) as [t|]; [|apply Hcatch].
    apply Preserves_bind; [apply Preserves_storeSession|intros _].
    apply Preserves_bind; [apply Preserves_onTokenRefreshed|intros _].
    preserves.
  - apply Preserves_bind; [preserves|intros _].
    apply Preserves_bind; [apply Preserves_clearUser|intros _]. preserves.
  - destruct r as [d|e]; [|preserves].
    destruct (extractUserData d) as [u|]; [|preserves].
    destruct (ifTruthy (token u)) as [t|]; [|preserves].
    apply Preserves_bind; [apply Preserves_storeSession|intros _]. preserves.
Qed.

Lemma Preserves_onReply (config : Config) (k : Kont) (r : Reply) :
  Preserves I (onReply config k r).
Proof.
  destruct r as [d|status]; cbn [onReply]; [apply Preserves_settle|].
  apply Preserves_bind; [unfold clientResponseError; preserves|intros _].
  unfold authResponseError.
  destruct (_ && _); [|apply Preserves_settle].
  apply Preserves_bind; [preserves|intros rt].
  destruct (ifTruthy rt) as [token|].
  - apply Preserves_bind; [preserves|]. intros [|]; cbn [negb].
    + by apply I_subscribe.
    + unfold authApi.refreshToken. preserves.
  - apply Preserves_bind; [apply Preserves_clearUser|intros _].
    apply Preserves_bind; [preserves|intros _]. apply Preserves_settle.
Qed.

Lemma Preserves_step (ev : Event) : Preserves I (step ev).
Proof.
  destruct ev as [config p|p|p|config k r]; cbn [step];
    [..|apply Preserves_onReply];
    unfold login, authApi.login, logout, authApi.logout; preserves.
Qed.

Lemma Preserves_run (evs : list Event) : Preserves I (run evs).
Proof. apply Preserves_forEach, Preserves_step. Qed.

Lemma Preserves_registerSettled (r : Settled) : Preserves I (registerSettled r).
Proof.
  unfold registerSettled. apply Preserves_bind; [|intros res; preserves].
  destruct r as [d|e]; [|preserves].
  destruct (extractUserData d) as [u|]; [|preserves].
  destruct (ifTruthy (token u)) as [t|]; [|preserves].
  apply Preserves_bind; [apply Preserves_storeSession|intros _]. preserves.
Qed.

Lemma Preserves_refreshUserSettled (r : ProfileReply) :
  Preserves I (refreshUserSettled r).
Proof.
  destruct r as [u| | |]; cbn [refreshUserSettled]; unfold authApi.storeUser;
    preserves.
Qed.

End Invariants.

Lemma fst_exec (m : M unit) (st : State) : fst (exec m st) = snd (fst (m st)).
Proof. unfold exec. by destruct (m st) as [[[] st1] e1]. Qed.

(** X14.  Every request that waits in the queue carries the retry mark, at
    every point of every run: whatever requests, logins, logouts and replies
    occur, and whatever [register] and [refreshUser] do in between, a queue
    of marked requests stays a queue of marked requests.  A request replayed
    from the queue can therefore never start a second refresh. *)
Theorem queue_stays_marked {json : JSON} (evs : list Event) (st : State)
  (Hmarked : queueMarked st) :
  queueMarked (fst (exec (run evs) st))
  /\ (forall r, queueMarked (snd (fst (registerSettled r st))))
  /\ (forall r, queueMarked (fst (exec (refreshUserSettled r) st))).
Proof.
  assert (Hsame : forall (m : M unit),
    (forall s, refreshSubscribers (snd (fst (m s))) = refreshSubscribers s) ->
    Preserves queueMarked m).
  { intros m Hm s Hs. unfold queueMarked. by rewrite Hm. }
  assert (HsetItem : forall key value, key ∈ sessionSlots ->
            Preserves queueMarked (setItem key value))
    by (intros; apply Hsame; by intros []).
  assert (HremoveItem : forall key, key ∈ sessionSlots ->
            Preserves queueMarked (removeItem key))
    by (intros; apply Hsame; by intros []).
  assert (HsetUser : forall u, Preserves queueMarked (setUser u))
    by (intros; apply Hsame; by intros []).
  assert (HsetIsLoading : forall b, Preserves queueMarked (setIsLoading b))
    by (intros; apply Hsame; by intros []).
  assert (HsetIsRefreshing : forall b, Preserves queueMarked (setIsRefreshing b))
    by (intros; apply Hsame; by intros []).
  assert (Hsubscribe : forall c k, _retry c = true ->
            Preserves queueMarked (subscribeTokenRefresh (c, k))).
  { intros c k Hc [ls u ld rf qs path] Hs. unfold queueMarked in *. cbn in *.
    apply Forall_app. split; [done|]. by apply Forall_singleton. }
  assert (Hempty : Preserves queueMarked (setRefreshSubscribers []))
    by (intros [] _; apply Forall_nil_2).
  repeat split.
  - rewrite fst_exec. by apply Preserves_run.
  - intros r. by apply Preserves_registerSettled.
  - intros r. rewrite fst_exec. by apply Preserves_refreshUserSettled.
Qed.

(** X15.  The program writes no [localStorage] key other than the three
    session slots: along every run, and through [register] and
    [refreshUser], every other key keeps its value. *)
Theorem foreign_keys_untouched {json : JSON} (evs : list Event) (st : State)
  (key : string) (Hkey : key ∉ sessionSlots) :
  localStorage (fst (exec (run evs) st)) !! key = localStorage st !! key
  /\ (forall r,
       localStorage (snd (fst (registerSettled r st))) !! key
       = localStorage st !! key)
  /\ (forall r,
       localStorage (fst (exec (refreshUserSettled r) st)) !! key
       = localStorage st !! key).
Proof.
  set (I := foreignKey key (localStorage st !! key)).
  assert (Hsame : forall (m : M unit),
    (forall s, localStorage (snd (fst (m s))) = localStorage s) ->
    Preserves I m).
  { intros m Hm s Hs. unfold I, foreignKey. by rewrite Hm. }
  assert (HsetItem : forall k value, k ∈ sessionSlots ->
            Preserves I (setItem k value)).
  { intros k value Hk [ls u ld rf qs path] Hs. unfold I, foreignKey in *.
    change (<[k := value]> ls !! key = localStorage st !! key).
    rewrite lookup_insert_ne; [done|]. by intros ->. }
  assert (HremoveItem : forall k, k ∈ sessionSlots ->
            Preserves I (removeItem k)).
  { intros k Hk [ls u ld rf qs path] Hs. unfold I, foreignKey in *.
    change (delete k ls !! key = localStorage st !! key).
    rewrite lookup_delete_ne; [done|]. by intros ->. }
  assert (HsetUser : forall u, Preserves I (setUser u))
    by (intros; apply Hsame; by intros []).
  assert (HsetIsLoading : forall b, Preserves I (setIsLoading b))
    by (intros; apply Hsame; by intros []).
  assert (HsetIsRefreshing : forall b, Preserves I (setIsRefreshing b))
    by (intros; apply Hsame; by intros []).
  assert (Hsubscribe : forall c k, _retry c = true ->
            Preserves I (subscribeTokenRefresh (c, k)))
    by (intros; apply Hsame; by intros []).
  assert (Hempty : Preserves I (setRefreshSubscribers []))
    by (apply Hsame; by intros []).
  assert (Hst : I st) by done.
  repeat split.
  - rewrite fst_exec. by apply (Preserves_run I).
  - intros r. by apply (Preserves_registerSettled I).
  - intros r. rewrite fst_exec. by apply (Preserves_refreshUserSettled I).
Qed.

(** ** Utilities *)

Section Utilities.

Local Open Scope Z_scope.

Lemma slice_prefix (s : list Z) (n : Z) :
  0 <= n <= Z.of_nat (length s) -> helpers.slice s 0 n = take (Z.to_nat n) s.
Proof.
  intros Hn. unfold helpers.slice.
  replace (0 <? 0) with false by done.
  replace (n <? 0) with false by (symmetry; apply Z.ltb_ge; lia).
  rewrite !Z.min_l by lia. by rewrite Z.sub_0_r.
Qed.

(** X16.  [truncateText] with a non-negative [maxLength]: a text longer than
    [maxLength] becomes its first [maxLength] code units followed by three
    dots, so the result has up to [maxLength + 3] code units and may be
    longer than the text; and truncating twice is truncating once. *)
Theorem truncateText_idempotent (text : list Z) (maxLength : Z)
  (Hmax : 0 <= maxLength) :
  helpers.truncateText (helpers.truncateText text maxLength) maxLength
  = helpers.truncateText text maxLength
  /\ (Z.of_nat (length (helpers.truncateText text maxLength))
      <= Z.max (Z.of_nat (length text)) (maxLength + 3))
  /\ (maxLength < Z.of_nat (length text) ->
      Z.of_nat (length (helpers.truncateText text maxLength)) = maxLength + 3
      /\ take (Z.to_nat maxLength) (helpers.truncateText text maxLength)
         = take (Z.to_nat maxLength) text).
Proof.
  assert (Hlong : maxLength < Z.of_nat (length text) ->
    helpers.truncateText text maxLength
    = take (Z.to_nat maxLength) text ++ helpers.codeUnits "...").
  { intros Hlt. unfold helpers.truncateText.
    replace (Z.of_nat (length text) <=? maxLength) with false
      by (symmetry; apply Z.leb_gt; lia).
    by rewrite slice_prefix by lia. }
  assert (Hlen : maxLength < Z.of_nat (length text) ->
    length (take (Z.to_nat maxLength) text) = Z.to_nat maxLength)
    by (intros Hlt; rewrite length_take; lia).
  destruct (Z.leb_spec (Z.of_nat (length text)) maxLength) as [Hle|Hlt].
  - assert (Hid : helpers.truncateText text maxLength = text).
    { unfold helpers.truncateText.
      by replace (Z.of_nat (length text) <=? maxLength) with true
        by (symmetry; apply Z.leb_le; lia). }
    rewrite !Hid. repeat split; lia.
  - specialize (Hlong Hlt). specialize (Hlen Hlt).
    assert (Htake : take (Z.to_nat maxLength)
                      (take (Z.to_nat maxLength) text ++ helpers.codeUnits "...")
                    = take (Z.to_nat maxLength) text).
    { rewrite take_app_le by lia. apply take_ge. lia. }
    assert (Hsize : Z.of_nat (length (helpers.truncateText text maxLength))
                    = maxLength + 3).
    { rewrite Hlong, length_app, Hlen. cbn. lia. }
    split; [|split; [lia|intros _; split; [done|by rewrite Hlong]]].
    remember (helpers.truncateText text maxLength) as r eqn:Hr.
    unfold helpers.truncateText.
    replace (Z.of_nat (length r) <=? maxLength) with false
      by (symmetry; apply Z.leb_gt; lia).
    rewrite slice_prefix by lia.
    rewrite Hlong at 1. by rewrite Htake.
Qed.

Lemma toInt32_range (x : Z) : - 2 ^ 31 <= helpers.toInt32 x < 2 ^ 31.
Proof.
  unfold helpers.toInt32.
  pose proof (Z.mod_pos_bound x (2 ^ 32) ltac:(lia)) as Hmod.
  destruct (Z.leb_spec (2 ^ 31) (x mod 2 ^ 32)); lia.
Qed.

Lemma hashStep_bound (acc char : Z) :
  0 <= char < 65536 ->
  Z.abs (helpers.hashStep acc char) <= Z.abs acc + (2 ^ 31 + 2 ^ 16).
Proof.
  intros Hchar. unfold helpers.hashStep, helpers.shiftLeft.
  pose proof (toInt32_range (Z.shiftl (helpers.toInt32 acc) (5 mod 32))).
  lia.
Qed.

Lemma hash_bound (name : list Z) (acc : Z) :
  Forall (fun c => 0 <= c < 65536) name ->
  Z.abs (fold_left helpers.hashStep name acc)
  <= Z.abs acc + (2 ^ 31 + 2 ^ 16) * Z.of_nat (length name).
Proof.
  intros Hname. revert acc.
  induction Hname as [|c name Hc _ IH]; intros acc; [cbn; lia|].
  cbn [fold_left length]. specialize (IH (helpers.hashStep acc c)).
  pose proof (hashStep_bound acc c Hc). lia.
Qed.

(** X17.  [generateAvatarColor] on a name of fewer than [2 ^ 21] code units:
    every number computed while the name is folded is a safe integer, so
    that no rounding occurs, and the result is one of the seventeen classes
    of the palette, never [undefined]. *)
Theorem generateAvatarColor_in_palette (name : list Z)
  (Hunits : Forall (fun c => 0 <= c < 65536) name)
  (Hlength : Z.of_nat (length name) < 2 ^ 21) :
  (forall n, Z.abs (helpers.hash (take n name)) + 2 ^ 32 < 2 ^ 53)
  /\ exists colour,
       helpers.generateAvatarColor name = Some colour
       /\ colour ∈ helpers.colors.
Proof.
  split.
  - intros n. unfold helpers.hash.
    pose proof (hash_bound (take n name) 0 (Forall_take _ n _ Hunits)) as Hb.
    assert (Z.of_nat (length (take n name)) <= Z.of_nat (length name))
      by (rewrite length_take; lia).
    nia.
  - unfold helpers.generateAvatarColor.
    set (i := Z.to_nat (Z.abs (helpers.hash name)
                        mod Z.of_nat (length helpers.colors))).
    assert (Hi : (i < length helpers.colors)%nat).
    { subst i.
      pose proof (Z.mod_pos_bound (Z.abs (helpers.hash name))
                    (Z.of_nat (length helpers.colors))) as Hmod.
      cbn [length helpers.colors] in *. lia. }
    destruct (lookup_lt_is_Some_2 _ _ Hi) as [colour Hcolour].
    exists colour. split; [done|]. by eapply list_elem_of_lookup_2.
Qed.

Lemma Matches_Cat_inv (r1 r2 : helpers.Regex) (s : list Z) :
  helpers.Matches (helpers.Cat r1 r2) s ->
  exists s1 s2, s = s1 ++ s2 /\ helpers.Matches r1 s1 /\ helpers.Matches r2 s2.
Proof. inversion 1; subst. eauto. Qed.

Lemma nullable_Matches (r : helpers.Regex) :
  helpers.nullable r = true <-> helpers.Matches r [].
Proof.
  induction r as [| |p|r1 IH1 r2 IH2|r1 IH1 r2 IH2|r IH]; cbn.
  - split; [done|]. inversion 1.
  - split; [constructor|done].
  - split; [done|]. inversion 1.
  - rewrite andb_true_iff, IH1, IH2. split.
    + intros [H1 H2]. by apply (helpers.MCat r1 r2 [] []).
    + intros (s1 & s2 & Heq & H1 & H2)%Matches_Cat_inv.
      symmetry in Heq. by destruct (app_eq_nil _ _ Heq) as [-> ->].
  - rewrite orb_true_iff, IH1, IH2. split.
    + intros [H|H]; [by apply helpers.MAltL|by apply helpers.MAltR].
    + inversion 1; subst; auto.
  - split; [constructor|done].
Qed.

Lemma Matches_Star_cons (r : helpers.Regex) (c : Z) (s : list Z) :
  helpers.Matches (helpers.Star r) (c :: s) ->
  exists s1 s2, s = s1 ++ s2 /\ helpers.Matches r (c :: s1)
                /\ helpers.Matches (helpers.Star r) s2.
Proof.
  remember (helpers.Star r) as r' eqn:Hr. remember (c :: s) as cs eqn:Hcs.
  intros HM. revert Hr Hcs.
  induction HM as [| | | | | |r0 s1 s2 H1 _ H2 IH2]; try done.
  intros [= ->] Hcs. destruct s1 as [|c1 s1]; cbn in Hcs.
  - by apply IH2.
  - injection Hcs as -> <-. by exists s1, s2.
Qed.

Lemma derivative_Matches (c : Z) (r : helpers.Regex) (s : list Z) :
  helpers.Matches (helpers.derivative c r) s <-> helpers.Matches r (c :: s).
Proof.
  revert s.
  induction r as [| |p|r1 IH1 r2 IH2|r1 IH1 r2 IH2|r IH]; intros s; cbn.
  - split; inversion 1.
  - split; inversion 1.
  - destruct (p c) eqn:Hp; split.
    + inversion 1; subst. by constructor.
    + inversion 1; subst. constructor.
    + inversion 1.
    + inversion 1; subst. congruence.
  - assert (Hhead : helpers.Matches (helpers.Cat (helpers.derivative c r1) r2) s
                    -> helpers.Matches (helpers.Cat r1 r2) (c :: s)).
    { intros (s1 & s2 & -> & H1 & H2)%Matches_Cat_inv.
      apply IH1 in H1. by apply (helpers.MCat r1 r2 (c :: s1) s2). }
    assert (Hsplit : helpers.Matches (helpers.Cat r1 r2) (c :: s) ->
              helpers.Matches (helpers.Cat (helpers.derivative c r1) r2) s
              \/ (helpers.Matches r1 [] /\ helpers.Matches r2 (c :: s))).
    { intros (s1 & s2 & Heq & H1 & H2)%Matches_Cat_inv.
      destruct s1 as [|c1 s1]; cbn in Heq.
      - right. by subst.
      - injection Heq as -> ->. left. constructor; [by apply IH1|done]. }
    destruct (helpers.nullable r1) eqn:Hnull; split.
    + inversion 1; subst; [by apply Hhead|].
      apply (helpers.MCat r1 r2 [] (c :: s)); [by apply nullable_Matches|].
      by apply IH2.
    + intros HM. destruct (Hsplit HM) as [H|[_ H]].
      * by apply helpers.MAltL.
      * apply helpers.MAltR. by apply IH2.
    + apply Hhead.
    + intros HM. destruct (Hsplit HM) as [H|[H _]]; [done|].
      apply nullable_Matches in H. congruence.
  - split.
    + inversion 1; subst.
      * apply helpers.MAltL. by apply IH1.
      * apply helpers.MAltR. by apply IH2.
    + inversion 1; subst.
      * apply helpers.MAltL. by apply IH1.
      * apply helpers.MAltR. by apply IH2.
  - split.
    + intros (s1 & s2 & -> & H1 & H2)%Matches_Cat_inv.
      apply IH in H1. by apply (helpers.MStarCons r (c :: s1) s2).
    + intros HM. destruct (Matches_Star_cons _ _ _ HM) as (s1 & s2 & -> & H1 & H2).
      constructor; [by apply IH|done].
Qed.

Lemma testAnchored_Matches (r : helpers.Regex) (s : list Z) :
  helpers.testAnchored r s = true <-> helpers.Matches r s.
Proof.
  unfold helpers.testAnchored. revert r.
  induction s as [|c s IH]; intros r; cbn [fold_left].
  - apply nullable_Matches.
  - by rewrite IH, derivative_Matches.
Qed.

Lemma Matches_Star_Class (p : Z -> bool) (s : list Z) :
  helpers.Matches (helpers.Star (helpers.Class p)) s
  <-> Forall (fun c => p c = true) s.
Proof.
  split.
  - remember (helpers.Star (helpers.Class p)) as r eqn:Hr.
    intros HM. revert Hr.
    induction HM as [| | | | | |r0 s1 s2 H1 _ H2 IH2]; try done.
    intros [= ->]. inversion H1; subst. constructor; [done|by apply IH2].
  - induction 1 as [|c s Hc _ IH]; [constructor|].
    apply (helpers.MStarCons _ [c] s); [by constructor|done].
Qed.

Lemma Matches_Plus_Class (p : Z -> bool) (s : list Z) :
  helpers.Matches (helpers.Plus (helpers.Class p)) s
  <-> s <> [] /\ Forall (fun c => p c = true) s.
Proof.
  unfold helpers.Plus. split.
  - intros (s1 & s2 & -> & H1 & H2)%Matches_Cat_inv.
    inversion H1; subst. split; [done|].
    constructor; [done|by apply Matches_Star_Class].
  - intros [Hne Hall]. destruct Hall as [|c s Hc Hs]; [done|].
    apply (helpers.MCat _ _ [c] s); [by constructor|by apply Matches_Star_Class].
Qed.

Lemma Matches_Class_eq (k : Z) (s : list Z) :
  helpers.Matches (helpers.Class (fun c => c =? k)) s <-> s = [k].
Proof.
  split.
  - inversion 1 as [|? c Hc| | | | |]; subst. by apply Z.eqb_eq in Hc as ->.
  - intros ->. constructor. apply Z.eqb_refl.
Qed.

(** X18.  [isValidEmail] accepts exactly the strings made of a local part,
    an at sign, a domain, a dot and a last part, where the three parts are
    not empty and contain neither white space nor an at sign (dots are
    allowed anywhere in them).  An accepted address therefore has no white
    space, exactly one at sign and five code units or more. *)
Theorem isValidEmail_spec (email : list Z) :
  let plain := fun c => helpers.notSpaceNorAt c = true in
  (helpers.isValidEmail email = true <->
   exists local domain tld,
     email = local ++ [64] ++ domain ++ [46] ++ tld
     /\ local <> [] /\ domain <> [] /\ tld <> []
     /\ Forall plain local /\ Forall plain domain /\ Forall plain tld)
  /\ (helpers.isValidEmail email = true ->
      Forall (fun c => helpers.whiteSpace c = false) email
      /\ length (filter (fun c => c = 64) email) = 1%nat
      /\ (5 <= length email)%nat).
Proof.
  intros plain.
  assert (Hspec : helpers.isValidEmail email = true <->
   exists local domain tld,
     email = local ++ [64] ++ domain ++ [46] ++ tld
     /\ local <> [] /\ domain <> [] /\ tld <> []
     /\ Forall plain local /\ Forall plain domain /\ Forall plain tld).
  { unfold helpers.isValidEmail, helpers.emailRegex.
    rewrite testAnchored_Matches. split.
    - intros (local & s1 & -> & Hlocal & H1)%Matches_Cat_inv.
      apply Matches_Cat_inv in H1 as (at_ & s2 & -> & Hat & H2).
      apply Matches_Cat_inv in H2 as (domain & s3 & -> & Hdomain & H3).
      apply Matches_Cat_inv in H3 as (dot & tld & -> & Hdot & Htld).
      apply Matches_Class_eq in Hat as ->. apply Matches_Class_eq in Hdot as ->.
      apply Matches_Plus_Class in Hlocal as [? ?].
      apply Matches_Plus_Class in Hdomain as [? ?].
      apply Matches_Plus_Class in Htld as [? ?].
      by exists local, domain, tld.
    - intros (local & domain & tld & -> & ? & ? & ? & ? & ? & ?).
      constructor; [by apply Matches_Plus_Class|].
      constructor; [by apply Matches_Class_eq|].
      constructor; [by apply Matches_Plus_Class|].
      constructor; [by apply Matches_Class_eq|].
      by apply Matches_Plus_Class. }
  split; [done|].
  intros (local & domain & tld & -> & Hl & Hd & Ht & Hpl & Hpd & Hpt)%Hspec.
  assert (Hplain : forall s, Forall plain s ->
            Forall (fun c => helpers.whiteSpace c = false) s
            /\ filter (fun c => c = 64) s = []).
  { induction 1 as [|c s Hc _ [IH1 IH2]]; [done|].
    unfold plain, helpers.notSpaceNorAt in Hc.
    apply negb_true_iff, orb_false_iff in Hc as [Hws Hat].
    apply Z.eqb_neq in Hat. split; [by constructor|].
    by rewrite filter_cons_False. }
  destruct (Hplain _ Hpl) as [Hwl Hfl], (Hplain _ Hpd) as [Hwd Hfd],
    (Hplain _ Hpt) as [Hwt Hft].
  split; [|split].
  - repeat (apply Forall_app; split); try done; by repeat constructor.
  - rewrite !filter_app, Hfl, Hfd, Hft. done.
  - destruct local, domain, tld; try done. rewrite !length_app. cbn. lia.
Qed.

End Utilities.

(** ** Form schemas *)

Section SchemaFacts.

Variable zodEmail : string -> bool.

Lemma min_le (m n : nat) (s : string) :
  (m <= n)%nat -> schemas.min n s = true -> schemas.min m s = true.
Proof.
  unfold schemas.min. rewrite !Nat.leb_le. lia.
Qed.

Lemma min_truthy (n : nat) (s : string) :
  (1 <= n)%nat -> schemas.min n s = true -> truthy (Some s) = true.
Proof.
  unfold schemas.min. rewrite Nat.leb_le. intros Hn Hs.
  destruct s; cbn in *; [lia|done].
Qed.

(** X19.  Credentials that the registration form or the password-reset form
    accepts are accepted by the login form: the password rules of
    [registerSchema] and of [resetPasswordSchema] imply the rule of
    [loginSchema], and the e-mail rule is the same. *)
Theorem accepted_credentials_pass_login
  (registration : schemas.UserFormData)
  (reset : schemas.ResetPasswordFormData) :
  (schemas.registerSchema zodEmail registration = true ->
   schemas.loginSchema zodEmail
     (schemas.mkLoginFormData (schemas.form_email registration)
                              (schemas.form_password registration)) = true)
  /\ (schemas.resetPasswordSchema zodEmail reset = true ->
      schemas.loginSchema zodEmail
        (schemas.mkLoginFormData (schemas.reset_email reset)
                                 (schemas.reset_password reset)) = true).
Proof.
  split.
  - destruct registration as [name email password confirmation role].
    unfold schemas.registerSchema, schemas.loginSchema. cbn.
    rewrite !andb_true_iff. intros [[[[[_ Hemail] Hpassword] _] _] _].
    by split.
  - destruct reset as [email token password confirmation].
    unfold schemas.resetPasswordSchema, schemas.loginSchema. cbn.
    rewrite !andb_true_iff. intros [[[[Hemail _] Hpassword] _] _].
    split; [done|]. destruct password as [p|]; [|done]. cbn in *.
    rewrite !andb_true_iff in Hpassword.
    destruct Hpassword as [[[[H1 H8] _] _] _].
    rewrite H1. cbn. apply (min_le 6 8); [lia|done].
Qed.

(** X20.  The two user forms agree: every form that [createUserSchema]
    accepts is accepted by [updateUserSchema]; and an update that carries a
    password is accepted only with a confirmation equal to it, although
    both members are optional. *)
Theorem updateUserSchema_password (data : schemas.UserFormData) :
  (schemas.createUserSchema zodEmail data = true ->
   schemas.updateUserSchema zodEmail data = true)
  /\ (schemas.updateUserSchema zodEmail data = true ->
      forall p, schemas.form_password data = Some p ->
                schemas.form_password_confirmation data = Some p).
Proof.
  destruct data as [name email password confirmation role].
  unfold schemas.createUserSchema, schemas.updateUserSchema,
    schemas.updateUserRefinement.
  cbn [schemas.form_name schemas.form_email schemas.form_password
       schemas.form_password_confirmation schemas.form_role].
  split.
  - rewrite !andb_true_iff.
    intros [[[[[Hname Hemail] Hpassword] Hconfirmation] Hrole] Hsame].
    destruct name as [n|], email as [e|], password as [p|],
      confirmation as [c|], role as [r|]; try done.
    cbn [schemas.required schemas.optional] in *.
    apply andb_true_iff in Hpassword as [_ H6].
    rewrite (min_truthy 6 p) by (done || lia).
    rewrite (min_truthy 1 c) by (done || lia).
    cbn [negb andb]. by rewrite Hname, Hemail, H6, Hrole, Hsame.
  - rewrite !andb_true_iff.
    intros [[[[[_ _] Hpassword] _] _] Hrefine] p [= ->].
    cbn [schemas.optional] in Hpassword.
    rewrite (min_truthy 6 p) in Hrefine by (done || lia).
    destruct (truthy confirmation); cbn [negb andb] in Hrefine; [|done].
    by apply bool_decide_eq_true in Hrefine.
Qed.

End SchemaFacts.

(** ** The further properties at concrete inputs *)

Section MoreScenarios.
#[local] Existing Instance refJSON.

Lemma canAccessRoute_is_the_guard_witness :
  canAccessRoute (user signedIn) [super_admin; admin] = true
  <-> ProtectedRoute signedIn (Some [super_admin; admin]) = Allow.
Proof.
  apply (canAccessRoute_is_the_guard signedIn [super_admin; admin]).
  reflexivity.
Defined.

Lemma sidebar_links_are_allowed_witness :
  exists component,
    render signedIn (router "/merchants") = Shows component.
Proof.
  apply (sidebar_links_are_allowed signedIn
           (Sidebar.mkItem "Merchants" "/merchants" ["super_admin"; "admin"])).
  - reflexivity.
  - vm_compute. apply list_elem_of_further, list_elem_of_here.
Defined.

Lemma sidebar_complete_witness :
  Sidebar.mkItem "Merchants" "/merchants" ["super_admin"; "admin"]
  ∈ Sidebar.filteredNavigation (user signedIn).
Proof.
  apply (sidebar_complete signedIn alice admin
           (Sidebar.mkItem "Merchants" "/merchants" ["super_admin"; "admin"])).
  - reflexivity.
  - reflexivity.
  - reflexivity.
  - vm_compute. do 2 apply list_elem_of_further. apply list_elem_of_here.
  - eexists. vm_compute. reflexivity.
Defined.

Lemma redirects_reach_a_page_witness :
  exists component,
    visit 2 signedIn "/login" = Shows component
    /\ (isAuthenticated signedIn = false <->
        component ∈ ["LoginPage"; "ForgotPasswordPage"; "ResetPasswordPage"]).
Proof.
  apply (redirects_reach_a_page signedIn "/login"). reflexivity.
Defined.

Lemma other_errors_pass_through_witness :
  exec (onReply usersRequest (KCaller 1) (ReplyError (Some 403))) signedIn
    = (signedIn, [Settle 1 (Rejected (AxiosError usersRequest (Some 403)))])
  /\ exec (onReply usersRequest (KLogin 1) (ReplyError (Some 403))) signedIn
    = (signedIn,
       [Settle 1 (Rejected (LoginError (AxiosError usersRequest (Some 403))))]).
Proof.
  apply (other_errors_pass_through signedIn usersRequest 1 (Some 403)).
  discriminate.
Defined.

Lemma committed_session_survives_reload_witness :
  restoredBy alice
    (fst (exec (onReply loginRequest (KLogin 1) (ReplyOk (WithUserField alice)))
               signedOut))
  /\ restoredBy alice
       (fst (exec (onReply refreshRequest refreshResume
                     (ReplyOk (WithUserField alice))) signedOut))
  /\ restoredBy alice
       (snd (fst (registerSettled (Fulfilled (WithUserField alice)) signedOut))).
Proof.
  apply (committed_session_survives_reload signedOut loginRequest 1
           (set_retry true usersRequest) (KCaller 1) (WithUserField alice)
           alice "t1").
  - reflexivity.
  - reflexivity.
  - vm_compute. repeat split; discriminate.
Defined.

Lemma refreshUser_without_data_witness :
  let st1 := fst (exec (refreshUserSettled ProfileUndefined) signedIn) in
  isAuthenticated st1 = false
  /\ authApi.getStoredUser (localStorage st1) = Returns None
  /\ initializeAuth (reload st1)
     = Returns (mkState (localStorage st1) None false false []
                        (pathname signedIn))
  /\ authApi.isAuthenticated (localStorage st1)
     = authApi.isAuthenticated (localStorage signedIn).
Proof.
  apply (refreshUser_without_data signedIn ProfileUndefined).
  left. reflexivity.
Defined.

Lemma refresh_without_token_fails_witness :
  exec (onReply refreshRequest refreshResume (ReplyOk NoData)) signedIn
  = (mkState (delete "refresh_token"
                (delete "user_data" (localStorage signedIn)))
             None false false [] "/dashboard",
     [ClearUser; RemoveItem "user_data"; RemoveItem "refresh_token";
      Settle 1 (Rejected TypeError)]).
Proof.
  apply (refresh_without_token_fails signedIn refreshRequest
           (set_retry true usersRequest) 1 NoData).
  reflexivity.
Defined.


Lemma queue_stays_marked_witness :
  queueMarked (fst (exec (run threeUnauthorized) signedIn))
  /\ (forall r, queueMarked (snd (fst (registerSettled r signedIn))))
  /\ (forall r, queueMarked (fst (exec (refreshUserSettled r) signedIn))).
Proof.
  apply (queue_stays_marked threeUnauthorized signedIn).
  vm_compute. constructor.
Defined.

Lemma foreign_keys_untouched_witness :
  let st := mkState (<["theme" := "dark"]> (localStorage signedIn))
                    (Some alice) false false [] "/dashboard" in
  localStorage (fst (exec (run refreshSucceeds) st)) !! "theme"
  = localStorage st !! "theme"
  /\ (forall r,
       localStorage (snd (fst (registerSettled r st))) !! "theme"
       = localStorage st !! "theme")
  /\ (forall r,
       localStorage (fst (exec (refreshUserSettled r) st)) !! "theme"
       = localStorage st !! "theme").
Proof.
  apply (foreign_keys_untouched refreshSucceeds
           (mkState (<["theme" := "dark"]> (localStorage signedIn))
                    (Some alice) false false [] "/dashboard") "theme").
  unfold sessionSlots. intros H.
  repeat (apply elem_of_cons in H as [H|H]; [discriminate H|]).
  by apply elem_of_nil in H.
Defined.

Lemma truncateText_idempotent_witness :
  let text := helpers.codeUnits "Dashboard" in
  helpers.truncateText (helpers.truncateText text 4) 4
  = helpers.truncateText text 4
  /\ (Z.of_nat (length (helpers.truncateText text 4))
      <= Z.max (Z.of_nat (length text)) (4 + 3))%Z
  /\ ((4 < Z.of_nat (length text))%Z ->
      Z.of_nat (length (helpers.truncateText text 4)) = (4 + 3)%Z
      /\ take (Z.to_nat 4) (helpers.truncateText text 4)
         = take (Z.to_nat 4) text).
Proof.
  apply (truncateText_idempotent (helpers.codeUnits "Dashboard") 4). lia.
Defined.

Lemma generateAvatarColor_in_palette_witness :
  let name := helpers.codeUnits "Alice" in
  (forall n, (Z.abs (helpers.hash (take n name)) + 2 ^ 32 < 2 ^ 53)%Z)
  /\ exists colour,
       helpers.generateAvatarColor name = Some colour
       /\ colour ∈ helpers.colors.
Proof.
  apply (generateAvatarColor_in_palette (helpers.codeUnits "Alice")).
  - vm_compute. repeat (constructor; [split; [discriminate|reflexivity]|]).
    constructor.
  - vm_compute. reflexivity.
Defined.

Lemma accepted_credentials_pass_login_witness :
  let registration :=
    schemas.mkUserFormData (Some "Alice") (Some "alice@example.com")
      (Some "secret1") (Some "secret1") (Some "admin") in
  let reset :=
    schemas.mkResetPasswordFormData (Some "alice@example.com") (Some "tok")
      (Some "Secret12") (Some "Secret12") in
  schemas.registerSchema (includes "@") registration = true
  /\ schemas.resetPasswordSchema (includes "@") reset = true
  /\ schemas.loginSchema (includes "@")
       (schemas.mkLoginFormData (schemas.form_email registration)
                                (schemas.form_password registration)) = true
  /\ schemas.loginSchema (includes "@")
       (schemas.mkLoginFormData (schemas.reset_email reset)
                                (schemas.reset_password reset)) = true.
Proof.
  intros registration reset.
  assert (Hregistration :
            schemas.registerSchema (includes "@") registration = true)
    by (vm_compute; reflexivity).
  assert (Hreset : schemas.resetPasswordSchema (includes "@") reset = true)
    by (vm_compute; reflexivity).
  destruct (accepted_credentials_pass_login (includes "@") registration reset)
    as [H1 H2].
  exact (conj Hregistration (conj Hreset (conj (H1 Hregistration) (H2 Hreset)))).
Defined.

Lemma updateUserSchema_password_witness :
  let data :=
    schemas.mkUserFormData None None (Some "secret1") (Some "secret1") None in
  schemas.updateUserSchema (includes "@") data = true
  /\ schemas.form_password_confirmation data = Some "secret1".
Proof.
  intros data.
  assert (Hdata : schemas.updateUserSchema (includes "@") data = true)
    by (vm_compute; reflexivity).
  split; [exact Hdata|].
  apply (proj2 (updateUserSchema_password (includes "@") data) Hdata "secret1").
  reflexivity.
Defined.

End MoreScenarios.
